(** * LoggedInLayout: the authenticated shell

    A shallow embedding of [src/LoggedInLayout.tsx]: the React state of the
    layout component and of the nested upload modal, the browser objects the
    handlers touch (sessionStorage, object URLs, FileReader), and every
    handler and effect as a function on that state.

    A change of a state cell of the layout renders the layout again, and with
    it mounts the nested upload modal anew. One thing is outside the model:
    events that arrive between a submission and the end of the read it started
    (a submission and its read are one step). Balances and sizes are integers;
    the time of a date string is an integer or NaN. *)

From stdpp Require Import gmap strings list pretty.
From Stdlib Require Import ZArith Sorted.

Open Scope Z_scope.

(** ** Data model *)

(** [type Page = 'generator' | 'profile' | 'support' | 'favorites' | 'gallery'] *)
Inductive Page := generator | profile | support | favorites | gallery.

#[global] Instance Page_eq_dec : EqDecision Page.
Proof. solve_decision. Defined.

(** The toast kinds ['success' | 'error' | 'info']. *)
Inductive ToastType := success | error | info.

#[global] Instance ToastType_eq_dec : EqDecision ToastType.
Proof. solve_decision. Defined.

(** The current user record of the AuthContext; [credits] is an integer
    balance. *)
Module User.
Record t := { id : string; credits : Z }.
End User.

(** A notification record of the AuthContext. [createdAt] is the date string
    handed to [new Date]. *)
Module Notification.
Record t := {
  id : string;
  message : string;
  type : ToastType;
  read : bool;
  userId : string;
  createdAt : string
}.
End Notification.

(** The [activeToast] state value. *)
Module Toast.
Record t := { id : string; message : string; type : ToastType }.
End Toast.

#[global] Instance Toast_eq_dec : EqDecision Toast.t.
Proof. solve_decision. Defined.

(** A browser [File]: only the two attributes the layout reads, and a name to
    tell files apart. [size] is a byte count. *)
Module File.
Record t := { name : string; type : string; size : Z }.
End File.

(** The title typed in the upload form is the only string the layout trims,
    so it is kept as its sequence of UTF-16 code units; strings that are only
    compared or concatenated are Rocq strings. *)
Abbreviation jsstring := (list N).

(** An object URL ([blob:...]) is identified by its serial number. *)
Abbreviation ObjectURL := N.

(** Modelled from the spec: the [CreditPlan] record of [../types], which is not
    part of the sources at hand. The layout only stores a plan and hands it to
    the payment modal, so the plan is its opaque identifier. *)
Record CreditPlan := { planId : string }.

#[global] Instance CreditPlan_eq_dec : EqDecision CreditPlan.
Proof. solve_decision. Defined.

(** What the layout does to the outside: calls of the two AuthContext
    operations, and every [setActiveToast] with a toast (a toast put on
    screen). *)
Inductive Effect :=
| AddUserUploadedImage (imageUrl : option string) (title : jsstring)
| MarkNotificationsAsRead (ids : list string)
| ShowToast (t : Toast.t).

(** The [useState] cells of [LoggedInLayout]. *)
Record Layout := {
  currentPage : Page;
  isUploadModalOpen : bool;
  activeToast : option Toast.t;
  showLowCreditWarning : bool;
  isSelectPlanModalOpen : bool;
  selectedPlanForPayment : option CreditPlan
}.

(** The [useState] cells of the nested [UploadImageModal]. *)
Record UploadState := {
  imageFile : option File.t;
  previewUrl : option ObjectURL;
  title : jsstring;
  loading : bool
}.

(** The browser objects: session storage, and the object-URL store ([live]
    URLs are those created and not yet revoked). *)
Record Browser := {
  sessionStorage : gmap string string;
  liveURLs : gset ObjectURL;
  nextURL : ObjectURL
}.

Record World := {
  layout : Layout;
  modal : UploadState;
  browser : Browser;
  effects : list Effect
}.

(** Initial values of the [useState] calls. *)
Definition initialLayout : Layout :=
  {| currentPage := generator; isUploadModalOpen := false; activeToast := None;
     showLowCreditWarning := false; isSelectPlanModalOpen := false;
     selectedPlanForPayment := None |}.

Definition initialUpload : UploadState :=
  {| imageFile := None; previewUrl := None; title := []; loading := false |}.

Definition initialWorld (b : Browser) : World :=
  {| layout := initialLayout; modal := initialUpload; browser := b; effects := [] |}.

Definition freshBrowser : Browser :=
  {| sessionStorage := ∅; liveURLs := ∅; nextURL := 0%N |}.

(** ** State setters *)

Definition with_layout (f : Layout → Layout) (w : World) : World :=
  {| layout := f (layout w); modal := modal w; browser := browser w;
     effects := effects w |}.

Definition with_modal (f : UploadState → UploadState) (w : World) : World :=
  {| layout := layout w; modal := f (modal w); browser := browser w;
     effects := effects w |}.

Definition with_browser (f : Browser → Browser) (w : World) : World :=
  {| layout := layout w; modal := modal w; browser := f (browser w);
     effects := effects w |}.

Definition emit (e : Effect) (w : World) : World :=
  {| layout := layout w; modal := modal w; browser := browser w;
     effects := effects w ++ [e] |}.

(** A render of [LoggedInLayout]. The component [UploadImageModal] is
    declared inside the layout's body (line 85), so every render of the layout
    declares a new component: a mounted upload modal is unmounted and mounted
    again, and its state cells start from the initial values. (When the modal
    is not mounted there are no cells; the next mount starts from the initial
    values as well.) *)
Definition rerender : World → World := with_modal (λ _, initialUpload).

(** A [useState] setter of the layout. React compares the new value with the
    cell: an unchanged value is ignored, a changed one is stored and the
    layout renders again. *)
Definition setLayoutCell {A} `{EqDecision A}
    (get : Layout → A) (put : A → Layout → Layout) (v : A) (w : World) : World :=
  if decide (v = get (layout w)) then w else rerender (with_layout (put v) w).

Definition setCurrentPage : Page → World → World :=
  setLayoutCell currentPage (λ p l,
    {| currentPage := p; isUploadModalOpen := isUploadModalOpen l;
       activeToast := activeToast l;
       showLowCreditWarning := showLowCreditWarning l;
       isSelectPlanModalOpen := isSelectPlanModalOpen l;
       selectedPlanForPayment := selectedPlanForPayment l |}).

(** [{isUploadModalOpen && <UploadImageModal />}]: the modal component is
    mounted only while the flag is set, so clearing the flag unmounts it and
    its state cells are discarded; the next mount starts from the initial
    values. *)
Definition setUploadModalOpen : bool → World → World :=
  setLayoutCell isUploadModalOpen (λ b l,
    {| currentPage := currentPage l; isUploadModalOpen := b;
       activeToast := activeToast l;
       showLowCreditWarning := showLowCreditWarning l;
       isSelectPlanModalOpen := isSelectPlanModalOpen l;
       selectedPlanForPayment := selectedPlanForPayment l |}).

(** Every toast the handlers pass is a new object, so setting a toast always
    changes the cell; [setActiveToast(null)] changes it only when a toast is
    active. *)
Definition setActiveToast (t : option Toast.t) (w : World) : World :=
  let put := with_layout (λ l,
    {| currentPage := currentPage l; isUploadModalOpen := isUploadModalOpen l;
       activeToast := t;
       showLowCreditWarning := showLowCreditWarning l;
       isSelectPlanModalOpen := isSelectPlanModalOpen l;
       selectedPlanForPayment := selectedPlanForPayment l |}) in
  match t, activeToast (layout w) with
  | Some t, _ => emit (ShowToast t) (rerender (put w))
  | None, Some _ => rerender (put w)
  | None, None => w
  end.

Definition setShowLowCreditWarning : bool → World → World :=
  setLayoutCell showLowCreditWarning (λ b l,
    {| currentPage := currentPage l; isUploadModalOpen := isUploadModalOpen l;
       activeToast := activeToast l;
       showLowCreditWarning := b;
       isSelectPlanModalOpen := isSelectPlanModalOpen l;
       selectedPlanForPayment := selectedPlanForPayment l |}).

Definition setSelectPlanModalOpen : bool → World → World :=
  setLayoutCell isSelectPlanModalOpen (λ b l,
    {| currentPage := currentPage l; isUploadModalOpen := isUploadModalOpen l;
       activeToast := activeToast l;
       showLowCreditWarning := showLowCreditWarning l;
       isSelectPlanModalOpen := b;
       selectedPlanForPayment := selectedPlanForPayment l |}).

(** The plan handed over by the picker is one of the picker's plan objects;
    choosing the plan that is already in the cell stores the same object. *)
Definition setSelectedPlanForPayment : option CreditPlan → World → World :=
  setLayoutCell selectedPlanForPayment (λ p l,
    {| currentPage := currentPage l; isUploadModalOpen := isUploadModalOpen l;
       activeToast := activeToast l;
       showLowCreditWarning := showLowCreditWarning l;
       isSelectPlanModalOpen := isSelectPlanModalOpen l;
       selectedPlanForPayment := p |}).

Definition setImageFile (f : option File.t) : World → World :=
  with_modal (λ m,
    {| imageFile := f; previewUrl := previewUrl m; title := title m;
       loading := loading m |}).

Definition setPreviewUrl (u : option ObjectURL) : World → World :=
  with_modal (λ m,
    {| imageFile := imageFile m; previewUrl := u; title := title m;
       loading := loading m |}).

Definition setTitle (t : jsstring) : World → World :=
  with_modal (λ m,
    {| imageFile := imageFile m; previewUrl := previewUrl m; title := t;
       loading := loading m |}).

Definition setLoading (b : bool) : World → World :=
  with_modal (λ m,
    {| imageFile := imageFile m; previewUrl := previewUrl m; title := title m;
       loading := b |}).

(** ** Browser objects *)

(** [sessionStorage.getItem], [setItem] and [removeItem]. *)
Definition getItem (k : string) (w : World) : option string :=
  sessionStorage (browser w) !! k.

Definition setItem (k v : string) : World → World :=
  with_browser (λ b,
    {| sessionStorage := <[k := v]> (sessionStorage b);
       liveURLs := liveURLs b; nextURL := nextURL b |}).

Definition removeItem (k : string) : World → World :=
  with_browser (λ b,
    {| sessionStorage := delete k (sessionStorage b);
       liveURLs := liveURLs b; nextURL := nextURL b |}).

(** [URL.createObjectURL] hands out a URL never used before and keeps it
    alive until [URL.revokeObjectURL] releases it. *)
Definition createObjectURL (w : World) : ObjectURL * World :=
  let u := nextURL (browser w) in
  (u, with_browser (λ b,
        {| sessionStorage := sessionStorage b;
           liveURLs := {[u]} ∪ liveURLs b; nextURL := N.succ u |}) w).

Definition revokeObjectURL (u : ObjectURL) : World → World :=
  with_browser (λ b,
    {| sessionStorage := sessionStorage b;
       liveURLs := liveURLs b ∖ {[u]}; nextURL := nextURL b |}).

(** ** Low-credit warning (lines 31-42, 68-78) *)

Definition dismissKey : string := "lowCreditWarningDismissed".

(** [sessionStorage.getItem('lowCreditWarningDismissed') === 'true'] *)
Definition warningDismissed (w : World) : bool :=
  bool_decide (getItem dismissKey w = Some "true"%string).

(** The first [useEffect], re-run when [user] or [user.credits] changes. *)
Definition lowCreditEffect (user : option User.t) (w : World) : World :=
  match user with
  | None => w
  | Some u =>
      let dismissed := warningDismissed w in
      let w := if 5 <? User.credits u then removeItem dismissKey w else w in
      if (0 <? User.credits u) && (User.credits u <=? 5) && negb dismissed
      then setShowLowCreditWarning true w
      else setShowLowCreditWarning false w
  end.

Definition handleDismissLowCreditWarning (w : World) : World :=
  let w := setShowLowCreditWarning false w in
  setItem dismissKey "true" w.

Definition openSelectPlanModal : World → World := setSelectPlanModalOpen true.

Definition handleBuyCreditsFromWarning (w : World) : World :=
  let w := setShowLowCreditWarning false w in
  openSelectPlanModal w.

Definition handlePlanSelected (plan : CreditPlan) (w : World) : World :=
  let w := setSelectPlanModalOpen false w in
  setSelectedPlanForPayment (Some plan) w.

(** ** Toast selection (lines 44-66) *)

(** A number that a comparator or [getTime] returns: an integer or [NaN]
    ([None]). *)
Abbreviation number := (option Z).

(** [Array.prototype.sort(comparefn)]: a stable sort. The result of
    [comparefn a b] is negative, zero or positive, and [NaN] counts as zero
    (SortCompare). An element goes before the first later element it does not
    exceed, so equal elements keep their order. For a consistent comparator
    this is the order of every conforming sort; for others (a comparator that
    returns [NaN] for some pairs only) the standard leaves the order to the
    engine, and this is the order insertion gives. *)
Definition sortCompare {A} (comparefn : A → A → number) (x y : A) : Z :=
  default 0 (comparefn x y).

Fixpoint sort_insert {A} (comparefn : A → A → number) (x : A) (l : list A) : list A :=
  match l with
  | [] => [x]
  | y :: l' =>
      if sortCompare comparefn x y <=? 0 then x :: y :: l'
      else y :: sort_insert comparefn x l'
  end.

Definition sort {A} (comparefn : A → A → number) (l : list A) : list A :=
  foldr (sort_insert comparefn) [] l.

(** [n => !n.read && n.userId === user.id] *)
Definition isUnreadFor (u : User.t) (n : Notification.t) : bool :=
  negb (Notification.read n) && bool_decide (Notification.userId n = User.id u).

(** Subtraction of two numbers: [NaN] when either is. (The times are
    integers of magnitude at most 8.64e15, so the sign of the difference is
    exact.) *)
Definition minus (x y : number) : number :=
  match x, y with
  | Some x, Some y => Some (x - y)
  | _, _ => None
  end.

(** [(a, b) => new Date(a.createdAt).getTime() - new Date(b.createdAt).getTime()];
    [getTime s] stands for [new Date(s).getTime()]: the epoch milliseconds of
    the date string [s], or [NaN] when [s] is not a date. *)
Definition byCreatedAt (getTime : string → number) (a b : Notification.t) : number :=
  minus (getTime (Notification.createdAt a)) (getTime (Notification.createdAt b)).

Definition unreadOf (getTime : string → number) (u : User.t)
    (notifications : list Notification.t) : list Notification.t :=
  sort (byCreatedAt getTime) (List.filter (isUnreadFor u) notifications).

Definition toastOf (n : Notification.t) : Toast.t :=
  {| Toast.id := Notification.id n; Toast.message := Notification.message n;
     Toast.type := Notification.type n |}.

(** The second [useEffect]. *)
Definition toastEffect (getTime : string → number) (user : option User.t)
    (notifications : option (list Notification.t)) (w : World) : World :=
  match activeToast (layout w), user, notifications with
  | None, Some u, Some ns =>
      match unreadOf getTime u ns with
      | nextNotification :: _ => setActiveToast (Some (toastOf nextNotification)) w
      | [] => w
      end
  | _, _, _ => w
  end.

Definition handleToastClose (w : World) : World :=
  match activeToast (layout w) with
  | Some t =>
      let w := emit (MarkNotificationsAsRead [Toast.id t]) w in
      setActiveToast None w
  | None => w
  end.

(** ** Upload modal (lines 85-166) *)

(** ECMAScript white space and line terminators, the code units that
    [String.prototype.trim] strips. *)
Definition isWhiteSpace (c : N) : bool :=
  bool_decide (c ∈ [9; 10; 11; 12; 13; 32; 160; 5760; 8232; 8233; 8239; 8287;
                    12288; 65279]%N)
  || ((8192 <=? c) && (c <=? 8202))%N.

Fixpoint trimStart (s : jsstring) : jsstring :=
  match s with
  | c :: s' => if isWhiteSpace c then trimStart s' else s
  | [] => []
  end.

Definition trimEnd (s : jsstring) : jsstring := rev (trimStart (rev s)).

Definition trim (s : jsstring) : jsstring := trimEnd (trimStart s).

(** [!s] for a string: true exactly for the empty string. *)
Definition isEmpty (s : jsstring) : bool :=
  match s with [] => true | _ => false end.

Definition allowedTypes : list string := ["image/jpeg"; "image/png"; "image/webp"].

(** [Array.prototype.includes] on strings. *)
Definition includes (l : list string) (s : string) : bool := bool_decide (s ∈ l).

Definition maxSize : Z := 5 * 1024 * 1024.

(** The template strings [`err-${Date.now()}`] and [`succ-${Date.now()}`]. *)
Definition errId (now : Z) : string := "err-" +:+ pretty now.
Definition succId (now : Z) : string := "succ-" +:+ pretty now.

Definition errorToast (now : Z) (msg : string) : Toast.t :=
  {| Toast.id := errId now; Toast.message := msg; Toast.type := error |}.

Definition successToast (now : Z) (msg : string) : Toast.t :=
  {| Toast.id := succId now; Toast.message := msg; Toast.type := success |}.

Definition msgInvalidType : string := "Invalid file type. Use JPG, PNG, or WEBP.".
Definition msgTooLarge : string := "File is too large. Max size is 5MB.".
Definition msgPublished : string := "Image successfully published to gallery!".
Definition msgReadFailed : string := "Failed to read file.".

(** [now] is the value [Date.now()] returns during the call. *)
Definition handleFileSelect (now : Z) (file : File.t) (w : World) : World :=
  if negb (includes allowedTypes (File.type file)) then
    setActiveToast (Some (errorToast now msgInvalidType)) w
  else if maxSize <? File.size file then
    setActiveToast (Some (errorToast now msgTooLarge)) w
  else
    let w := setImageFile (Some file) w in
    let w := match previewUrl (modal w) with
             | Some u => revokeObjectURL u w
             | None => w
             end in
    let '(u, w) := createObjectURL w in
    setPreviewUrl (Some u) w.

(** [event.target.files?.[0]] *)
Definition handleFileChange (now : Z) (files : list File.t) (w : World) : World :=
  match files with
  | file :: _ => handleFileSelect now file w
  | [] => w
  end.

(** The browser's [FileReader]. A read ends in one of two ways; per the File
    API it fires [loadstart], then [load] when the read succeeded or [error]
    when it failed, and then [loadend] in both cases. [result] is the data
    URL after a successful read and [null] after a failed one. A handler sees
    the reader's [result] and the clock. *)
Module FileReader.
Definition Handler := option string → Z → World → World.

Record t := {
  onloadstart : option Handler;
  onload : option Handler;
  onerror : option Handler;
  onloadend : option Handler
}.

(** [new FileReader()] and the assignments to [onloadend] and [onerror]. *)
Definition new : t :=
  {| onloadstart := None; onload := None; onerror := None; onloadend := None |}.

Definition set_onloadend (h : Handler) (r : t) : t :=
  {| onloadstart := onloadstart r; onload := onload r; onerror := onerror r;
     onloadend := Some h |}.

Definition set_onerror (h : Handler) (r : t) : t :=
  {| onloadstart := onloadstart r; onload := onload r; onerror := Some h;
     onloadend := onloadend r |}.

Inductive Outcome := Done (dataUrl : string) | Failed.

Inductive ProgressEvent := loadstart | load | error | loadend.

Definition result (o : Outcome) : option string :=
  match o with Done d => Some d | Failed => None end.

Definition events (o : Outcome) : list ProgressEvent :=
  match o with
  | Done _ => [loadstart; load; loadend]
  | Failed => [loadstart; error; loadend]
  end.

Definition handlerOf (r : t) (e : ProgressEvent) : option Handler :=
  match e with
  | loadstart => onloadstart r
  | load => onload r
  | error => onerror r
  | loadend => onloadend r
  end.

Definition dispatch (r : t) (res : option string) (now : Z)
    (e : ProgressEvent) (w : World) : World :=
  match handlerOf r e with
  | Some h => h res now w
  | None => w
  end.

(** The completion of [readAsDataURL] with outcome [o] at time [now]. *)
Definition complete (r : t) (o : Outcome) (now : Z) (w : World) : World :=
  foldl (λ w e, dispatch r (result o) now e w) w (events o).
End FileReader.

(** [reader.onloadend] and [reader.onerror] of [handleSubmit]; [title] is the
    title captured by the closure. *)
Definition submitOnloadend (title : jsstring) : FileReader.Handler :=
  λ result now w,
    let imageUrl := result in
    let w := emit (AddUserUploadedImage imageUrl title) w in
    let w := setLoading false w in
    let w := setUploadModalOpen false w in
    setActiveToast (Some (successToast now msgPublished)) w.

Definition submitOnerror : FileReader.Handler :=
  λ _ now w,
    let w := setLoading false w in
    setActiveToast (Some (errorToast now msgReadFailed)) w.

(** [handleSubmit]: the synchronous part. It returns the reader it started
    and the file being read, or [None] when it returned at the guard. *)
Definition handleSubmit (w : World) : World * option (FileReader.t * File.t) :=
  match imageFile (modal w) with
  | None => (w, None)
  | Some file =>
      if isEmpty (trim (title (modal w))) then (w, None)
      else
        let t := title (modal w) in
        let w := setLoading true w in
        let reader := FileReader.new in
        let reader := FileReader.set_onloadend (submitOnloadend t) reader in
        let reader := FileReader.set_onerror submitOnerror reader in
        (w, Some (reader, file))
  end.

(** A submission followed by the end of the read it started. *)
Definition submitAndRead (o : FileReader.Outcome) (now : Z) (w : World) : World :=
  match handleSubmit w with
  | (w, Some (reader, _)) => FileReader.complete reader o now w
  | (w, None) => w
  end.

(** [disabled={loading || !imageFile || !title.trim()}] *)
Definition submitDisabled (w : World) : bool :=
  loading (modal w)
  || match imageFile (modal w) with None => true | Some _ => false end
  || isEmpty (trim (title (modal w))).

(** ** Page routing and rendering (lines 168-194) *)

(** The callbacks the layout hands to its children as props. *)
Inductive Callback :=
| NavigateTo (p : Page)        (* [() => setCurrentPage(p)] *)
| OpenSelectPlanModal.         (* [openSelectPlanModal] *)

Definition call (c : Callback) : World → World :=
  match c with
  | NavigateTo p => setCurrentPage p
  | OpenSelectPlanModal => openSelectPlanModal
  end.

(** The five page elements with the props the layout gives them. *)
Inductive PageElement :=
| GeneratorPage (onBuyCredits : Callback)
| ProfilePage (onNavigateBack onNavigateToSupport onBuyCredits : Callback)
| SupportPage (onNavigateBack : Callback)
| FavoritesPage (onNavigateBack : Callback)
| PublicGalleryPage (onNavigateBack : Callback).

(** [{cond && <Element />}] renders the element when [cond] holds and nothing
    otherwise. *)
Definition when {A} (cond : bool) (x : A) : list A := if cond then [x] else [].

(** The children of the routed [div] (lines 178-182). *)
Definition routedPages (w : World) : list PageElement :=
  let currentPage := currentPage (layout w) in
  when (bool_decide (currentPage = generator))
       (GeneratorPage OpenSelectPlanModal)
  ++ when (bool_decide (currentPage = profile))
       (ProfilePage (NavigateTo generator) (NavigateTo support) OpenSelectPlanModal)
  ++ when (bool_decide (currentPage = support))
       (SupportPage (NavigateTo profile))
  ++ when (bool_decide (currentPage = favorites))
       (FavoritesPage (NavigateTo generator))
  ++ when (bool_decide (currentPage = gallery))
       (PublicGalleryPage (NavigateTo generator)).

Inductive PageProp := onNavigateBack | onNavigateToSupport | onBuyCredits.

Definition propOf (e : PageElement) (p : PageProp) : option Callback :=
  match e, p with
  | GeneratorPage b, onBuyCredits => Some b
  | ProfilePage n _ _, onNavigateBack => Some n
  | ProfilePage _ s _, onNavigateToSupport => Some s
  | ProfilePage _ _ b, onBuyCredits => Some b
  | SupportPage n, onNavigateBack => Some n
  | FavoritesPage n, onNavigateBack => Some n
  | PublicGalleryPage n, onNavigateBack => Some n
  | _, _ => None
  end.

(** The prop [p] of the page on screen, if that page has it. *)
Definition pageCallback (w : World) (p : PageProp) : option Callback :=
  match routedPages w with
  | e :: _ => propOf e p
  | [] => None
  end.

(** [{selectedPlanForPayment && <PaymentRequestModal plan=... />}]: the
    payment modals on screen, each with its plan. *)
Definition paymentModals (w : World) : list CreditPlan :=
  match selectedPlanForPayment (layout w) with
  | Some plan => [plan]
  | None => []
  end.

(** ** Events

    What can happen to the mounted layout: a callback of a rendered child is
    invoked, the AuthContext hands the layout a new value, or one of the two
    effects runs. An effect runs after a render in which one of its
    dependencies changed; the dependencies are context values and the toast
    cell, so the layout has rendered again when the effect runs. *)
Inductive Event :=
| HeaderNavigate (p : Page)
| HeaderBuyCredits
| HeaderUploadImage
| PageInvoke (p : PageProp)
| SelectPlanClose
| SelectPlan (plan : CreditPlan)
| PaymentClose
| UploadClose
| UploadFileChange (now : Z) (files : list File.t)
| UploadTitleChange (t : jsstring)
| UploadSubmit (o : FileReader.Outcome) (now : Z)
| MiniGalleryOpenFavorites
| ToastClose
| WarningDismiss
| WarningBuyCredits
| ContextChanged
| RunLowCreditEffect (user : option User.t)
| RunToastEffect (getTime : string → number) (user : option User.t)
    (notifications : option (list Notification.t)).

(** An event can occur only when the child that owns the callback is
    rendered. The header and the mini gallery always are. *)
Definition enabled (e : Event) (w : World) : bool :=
  match e with
  | HeaderNavigate _ | HeaderBuyCredits | HeaderUploadImage
  | MiniGalleryOpenFavorites => true
  | PageInvoke p => bool_decide (is_Some (pageCallback w p))
  | SelectPlanClose | SelectPlan _ => isSelectPlanModalOpen (layout w)
  | PaymentClose => bool_decide (is_Some (selectedPlanForPayment (layout w)))
  | UploadClose | UploadFileChange _ _ | UploadTitleChange _ | UploadSubmit _ _ =>
      isUploadModalOpen (layout w)
  | ToastClose => bool_decide (is_Some (activeToast (layout w)))
  | WarningDismiss | WarningBuyCredits => showLowCreditWarning (layout w)
  | ContextChanged | RunLowCreditEffect _ | RunToastEffect _ _ _ => true
  end.

Definition handle (e : Event) (w : World) : World :=
  match e with
  | HeaderNavigate p => setCurrentPage p w
  | HeaderBuyCredits => openSelectPlanModal w
  | HeaderUploadImage => setUploadModalOpen true w
  | PageInvoke p =>
      match pageCallback w p with Some c => call c w | None => w end
  | SelectPlanClose => setSelectPlanModalOpen false w
  | SelectPlan plan => handlePlanSelected plan w
  | PaymentClose => setSelectedPlanForPayment None w
  | UploadClose => setUploadModalOpen false w
  | UploadFileChange now files => handleFileChange now files w
  | UploadTitleChange t => setTitle t w
  | UploadSubmit o now => submitAndRead o now w
  | MiniGalleryOpenFavorites => setCurrentPage favorites w
  | ToastClose => handleToastClose w
  | WarningDismiss => handleDismissLowCreditWarning w
  | WarningBuyCredits => handleBuyCreditsFromWarning w
  | ContextChanged => rerender w
  | RunLowCreditEffect user => lowCreditEffect user (rerender w)
  | RunToastEffect getTime user notifications =>
      toastEffect getTime user notifications (rerender w)
  end.

(** Running a sequence of events; [None] when one of them cannot occur in the
    state it meets. *)
Fixpoint run (es : list Event) (w : World) : option World :=
  match es with
  | [] => Some w
  | e :: es => if enabled e w then run es (handle e w) else None
  end.

(** The three states of the plan flow as the layout's two cells show them. *)
Definition isIdle (w : World) : Prop :=
  isSelectPlanModalOpen (layout w) = false ∧ selectedPlanForPayment (layout w) = None.

Definition isPicking (w : World) : Prop :=
  isSelectPlanModalOpen (layout w) = true ∧ selectedPlanForPayment (layout w) = None.

Definition isPaying (plan : CreditPlan) (w : World) : Prop :=
  selectedPlanForPayment (layout w) = Some plan.

(** ** Predicates of the properties *)

(** The warning is on screen only while the session flag is not set. *)
Definition warningConsistent (w : World) : Prop :=
  showLowCreditWarning (layout w) = true → warningDismissed w = false.

(** The events that are a run of the low-credit effect. *)
Definition isRecompute (e : Event) : bool :=
  match e with RunLowCreditEffect _ => true | _ => false end.

(** The notification's [createdAt] is a date: [getTime] is not NaN. *)
Definition parsable (getTime : string → number) (n : Notification.t) : Prop :=
  is_Some (getTime (Notification.createdAt n)).

(** A notification is eligible for the user when it is in the list, unread,
    and owned by the user. *)
Definition eligible (u : User.t) (ns : list Notification.t) (n : Notification.t) : Prop :=
  n ∈ ns ∧ Notification.read n = false ∧ Notification.userId n = User.id u.

(** A list in ascending order of [key]. *)
Definition ascending {A} (key : A → Z) : list A → Prop :=
  StronglySorted (λ a b, key a ≤ key b).

(** [u] is alive, is not the modal's current preview, and is older than every
    URL still to be created: nothing the layout does can revoke it. *)
Definition leaked (u : ObjectURL) (w : World) : Prop :=
  u ∈ liveURLs (browser w)
  ∧ previewUrl (modal w) ≠ Some u
  ∧ (u < nextURL (browser w))%N.

(** The preview URL the modal holds is alive and was handed out before. *)
Definition previewTracked (w : World) : Prop :=
  ∀ u, previewUrl (modal w) = Some u →
       u ∈ liveURLs (browser w) ∧ (u < nextURL (browser w))%N.

(** The page a page element stands for. *)
Definition elementPage (e : PageElement) : Page :=
  match e with
  | GeneratorPage _ => generator
  | ProfilePage _ _ _ => profile
  | SupportPage _ => support
  | FavoritesPage _ => favorites
  | PublicGalleryPage _ => gallery
  end.

(** The runs of the low-credit effect that see a balance above 5. *)
Definition replenishes (e : Event) : bool :=
  match e with
  | RunLowCreditEffect (Some u) => 5 <? User.credits u
  | _ => false
  end.


Definition isSubmit (e : Event) : bool :=
  match e with UploadSubmit _ _ => true | _ => false end.

(** The [addUserUploadedImage] calls in a log. *)
Definition isRegistration (e : Effect) : bool :=
  match e with AddUserUploadedImage _ _ => true | _ => false end.

Definition registrations (w : World) : list Effect :=
  List.filter isRegistration (effects w).

(** Every registration so far carries a title that is not blank. *)
Definition registrationsTitled (w : World) : Prop :=
  ∀ imageUrl t, AddUserUploadedImage imageUrl t ∈ effects w → trim t ≠ [].

(** The active toast was put on screen, and every mark-as-read call carries
    the id of one toast that was put on screen. *)
Definition marksShown (w : World) : Prop :=
  (∀ t, activeToast (layout w) = Some t → ShowToast t ∈ effects w)
  ∧ (∀ ids, MarkNotificationsAsRead ids ∈ effects w →
       ∃ t, ids = [Toast.id t] ∧ ShowToast t ∈ effects w).

(** While the upload modal is closed its state cells hold the initial
    values. *)
Definition closedModalClean (w : World) : Prop :=
  isUploadModalOpen (layout w) = false → modal w = initialUpload.

(** ** Example data *)

Definition exampleUser (credits : Z) : User.t :=
  {| User.id := "u1"; User.credits := credits |}.

(** A concrete clock for examples: two dates and their epoch milliseconds;
    every other string is not a date. *)
Definition exampleGetTime (s : string) : number :=
  if decide (s = "2024-01-01T00:00:00Z") then Some 1704067200000
  else if decide (s = "2024-01-02T00:00:00Z") then Some 1704153600000
  else None.

Definition exampleNotification (id owner createdAt : string) (read : bool)
    : Notification.t :=
  {| Notification.id := id; Notification.message := "Credits added";
     Notification.type := info; Notification.read := read;
     Notification.userId := owner; Notification.createdAt := createdAt |}.

Definition exampleNotifications : list Notification.t :=
  [ exampleNotification "n1" "u1" "2024-01-02T00:00:00Z" false;
    exampleNotification "n2" "u2" "2024-01-01T00:00:00Z" false;
    exampleNotification "n3" "u1" "2024-01-01T00:00:00Z" true;
    exampleNotification "n4" "u1" "2024-01-01T00:00:00Z" false;
    exampleNotification "n5" "u1" "2024-01-01T00:00:00Z" false ].

(** Three unread notifications of [u1]; the second one's date is not a
    date. *)
Definition unparsableNotifications : list Notification.t :=
  [ exampleNotification "n1" "u1" "2024-01-02T00:00:00Z" false;
    exampleNotification "nx" "u1" "garbage" false;
    exampleNotification "n4" "u1" "2024-01-01T00:00:00Z" false ].

Definition exampleFile (type : string) (size : Z) : File.t :=
  {| File.name := "photo"; File.type := type; File.size := size |}.

Definition exampleJpegSelected (title : jsstring) : World :=
  setTitle title
    (handleFileSelect 0 (exampleFile "image/jpeg" (2 * 1024 * 1024))
       (setUploadModalOpen true (initialWorld freshBrowser))).

Definition exampleStorage : Browser :=
  {| sessionStorage := {[ "theme" := "dark" ]}; liveURLs := ∅; nextURL := 0%N |}.

Definition examplePlan : CreditPlan := {| planId := "starter" |}.

Definition onPage (p : Page) : World := setCurrentPage p (initialWorld freshBrowser).

(** * Properties *)

(** Unfolds a handler down to the record updates it performs. *)
Ltac unfold_setters :=
  unfold setCurrentPage, setUploadModalOpen, setActiveToast,
    setShowLowCreditWarning, setSelectPlanModalOpen, setSelectedPlanForPayment,
    setLayoutCell, rerender,
    setImageFile, setPreviewUrl, setTitle, setLoading, setItem, removeItem,
    revokeObjectURL, createObjectURL, emit, with_layout, with_modal,
    with_browser in *.

Ltac unfold_handlers :=
  unfold handle, call, handleBuyCreditsFromWarning, openSelectPlanModal,
    handleDismissLowCreditWarning, handlePlanSelected, handleToastClose,
    toastEffect, lowCreditEffect, handleFileChange, handleFileSelect,
    submitAndRead, handleSubmit, FileReader.complete, FileReader.dispatch,
    FileReader.events, FileReader.handlerOf, submitOnloadend, submitOnerror in *;
  unfold_setters.

Ltac crush_handlers :=
  unfold_handlers; repeat (case_match; simplify_eq/=); simpl in *; try done;
  try (intros; congruence).

(** ** What the setters leave alone *)

Section Setters.
Context {A : Type} `{EqDecision A}.
Variables (get : Layout → A) (put : A → Layout → Layout).

Lemma setLayoutCell_effects v w : effects (setLayoutCell get put v w) = effects w.
Proof. unfold setLayoutCell. by case_decide. Qed.

Lemma setLayoutCell_browser v w : browser (setLayoutCell get put v w) = browser w.
Proof. unfold setLayoutCell. by case_decide. Qed.

Lemma setLayoutCell_layout v w :
  layout (setLayoutCell get put v w)
  = if decide (v = get (layout w)) then layout w else put v (layout w).
Proof. unfold setLayoutCell. by case_decide. Qed.

Lemma setLayoutCell_modal v w :
  modal (setLayoutCell get put v w)
  = if decide (v = get (layout w)) then modal w else initialUpload.
Proof. unfold setLayoutCell. by case_decide. Qed.
End Setters.

Lemma setActiveToast_Some t w :
  effects (setActiveToast (Some t) w) = effects w ++ [ShowToast t]
  ∧ activeToast (layout (setActiveToast (Some t) w)) = Some t
  ∧ isUploadModalOpen (layout (setActiveToast (Some t) w))
    = isUploadModalOpen (layout w)
  ∧ modal (setActiveToast (Some t) w) = initialUpload
  ∧ browser (setActiveToast (Some t) w) = browser w.
Proof. done. Qed.

Lemma setUploadModalOpen_layout b w :
  isUploadModalOpen (layout (setUploadModalOpen b w)) = b
  ∧ activeToast (layout (setUploadModalOpen b w)) = activeToast (layout w).
Proof.
  unfold setUploadModalOpen. rewrite setLayoutCell_layout. by case_decide.
Qed.

(** ** Low-credit warning *)

Lemma warningDismissed_removeItem w :
  warningDismissed (removeItem dismissKey w) = false.
Proof.
  unfold warningDismissed, getItem, removeItem, with_browser; simpl.
  rewrite lookup_delete_eq. by apply bool_decide_eq_false.
Qed.

Lemma warningDismissed_setItem w :
  warningDismissed (setItem dismissKey "true" w) = true.
Proof.
  unfold warningDismissed, getItem, setItem, with_browser; simpl.
  rewrite lookup_insert_eq. by apply bool_decide_eq_true.
Qed.

Lemma warningDismissed_same_storage w w' :
  sessionStorage (browser w') = sessionStorage (browser w) →
  warningDismissed w' = warningDismissed w.
Proof. unfold warningDismissed, getItem. by intros ->. Qed.

Lemma setShowLowCreditWarning_show b w :
  showLowCreditWarning (layout (setShowLowCreditWarning b w)) = b.
Proof.
  unfold setShowLowCreditWarning, setLayoutCell. by case_decide.
Qed.

Lemma setShowLowCreditWarning_storage b w :
  sessionStorage (browser (setShowLowCreditWarning b w)) = sessionStorage (browser w).
Proof.
  unfold setShowLowCreditWarning, setLayoutCell. by case_decide.
Qed.

Lemma lowCreditEffect_show u w :
  showLowCreditWarning (layout (lowCreditEffect (Some u) w))
  = (0 <? User.credits u) && (User.credits u <=? 5) && negb (warningDismissed w).
Proof.
  unfold lowCreditEffect.
  destruct ((0 <? User.credits u) && (User.credits u <=? 5)
            && negb (warningDismissed w));
    apply setShowLowCreditWarning_show.
Qed.

Lemma lowCreditEffect_dismissed u w :
  warningDismissed (lowCreditEffect (Some u) w)
  = if 5 <? User.credits u then false else warningDismissed w.
Proof.
  unfold lowCreditEffect.
  destruct (5 <? User.credits u) eqn:Hgt.
  - case_match; (etrans; [|apply (warningDismissed_removeItem w)]);
      apply warningDismissed_same_storage, setShowLowCreditWarning_storage.
  - case_match;
      apply warningDismissed_same_storage, setShowLowCreditWarning_storage.
Qed.

(** C3: after the recompute for a present user, the warning is visible
    exactly when the balance is in (0, 5] and the session flag is not set: it
    shows for balances 1 to 5 when not dismissed and is hidden for 0 and for 6 or
    more. A balance above 5 clears the flag, so that a later recompute with a
    balance back in [1, 5] shows the warning even when it had been dismissed
    before the rise. *)
Theorem lowCreditEffect_spec (u : User.t) (w : World) :
  let w' := lowCreditEffect (Some u) w in
  (showLowCreditWarning (layout w') = true
     ↔ 0 < User.credits u ≤ 5 ∧ warningDismissed w = false)
  ∧ (1 ≤ User.credits u ≤ 5 → warningDismissed w = false →
       showLowCreditWarning (layout w') = true)
  ∧ (User.credits u = 0 ∨ 6 ≤ User.credits u →
       showLowCreditWarning (layout w') = false)
  ∧ (5 < User.credits u → warningDismissed w' = false)
  ∧ (∀ u2 : User.t,
       5 < User.credits u → 1 ≤ User.credits u2 ≤ 5 →
       let dismissed := handleDismissLowCreditWarning w in
       warningDismissed dismissed = true
       ∧ showLowCreditWarning
           (layout (lowCreditEffect (Some u2) (lowCreditEffect (Some u) dismissed)))
         = true).
Proof.
  cbv zeta. rewrite lowCreditEffect_show, lowCreditEffect_dismissed.
  assert (Hin : ∀ c d, 0 < c ≤ 5 → (0 <? c) && (c <=? 5) && negb d = negb d).
  { intros c d [??]. replace (0 <? c) with true by lia.
    by replace (c <=? 5) with true by lia. }
  split; [split|split; [|split; [|split]]].
  - intros H. repeat (apply andb_prop in H as [H ?]).
    split; [lia|]. by destruct (warningDismissed w).
  - intros [Hc ->]. by rewrite Hin.
  - intros Hc ->. rewrite Hin; [done|lia].
  - intros [-> | Hc]; [done|].
    apply andb_false_intro1, andb_false_intro2. lia.
  - intros Hc. by replace (5 <? User.credits u) with true by lia.
  - intros u2 Hc1 Hc2. split; [apply warningDismissed_setItem|].
    rewrite lowCreditEffect_show, lowCreditEffect_dismissed.
    replace (5 <? User.credits u) with true by lia.
    rewrite Hin; [done|lia].
Qed.

Lemma lowCreditEffect_spec_witness :
  showLowCreditWarning
    (layout (lowCreditEffect (Some (exampleUser 3))
       (lowCreditEffect (Some (exampleUser 9))
          (handleDismissLowCreditWarning (initialWorld freshBrowser)))))
  = true.
Proof.
  apply (lowCreditEffect_spec (exampleUser 9) (initialWorld freshBrowser)).
  - simpl; lia.
  - simpl; lia.
Defined.

Lemma handle_warningConsistent e w :
  warningConsistent w → warningConsistent (handle e w).
Proof.
  unfold warningConsistent. intros Hw.
  destruct e.
  all: try (rewrite (warningDismissed_same_storage w); [|by crush_handlers]).
  all: try (crush_handlers; fail).
  destruct user as [u|]; unfold handle; [|by crush_handlers].
  rewrite lowCreditEffect_show, lowCreditEffect_dismissed.
  change (warningDismissed (rerender w)) with (warningDismissed w).
  intros H. repeat (apply andb_prop in H as [H ?]).
  case_match; [done|]. by destruct (warningDismissed w).
Qed.

Lemma run_invariant (I : World → Prop) :
  (∀ e w, I w → enabled e w = true → I (handle e w)) →
  ∀ es w w', I w → run es w = Some w' → I w'.
Proof.
  intros Hstep es. induction es as [|e es IH]; simpl; intros w w' Hw Hrun.
  - by simplify_eq.
  - destruct (enabled e w) eqn:He; [|done]. eauto.
Qed.

Lemma run_warningConsistent es w w' :
  warningConsistent w → run es w = Some w' → warningConsistent w'.
Proof.
  apply (run_invariant warningConsistent).
  intros e w0 Hw _. by apply handle_warningConsistent.
Qed.

Lemma handle_hidden e w :
  isRecompute e = false → enabled e w = true →
  showLowCreditWarning (layout w) = false → warningDismissed w = false →
  showLowCreditWarning (layout (handle e w)) = false
  ∧ warningDismissed (handle e w) = false.
Proof.
  intros He Hen Hshow Hflag.
  destruct e; try done.
  all: try (split; [|rewrite <- Hflag; apply warningDismissed_same_storage];
            by crush_handlers).
  all: simpl in Hen; congruence.
Qed.

(** While the warning is hidden and not dismissed, only a run of the effect
    can change that. *)
Lemma run_hidden es w w' :
  forallb (λ e, negb (isRecompute e)) es = true → run es w = Some w' →
  showLowCreditWarning (layout w) = false → warningDismissed w = false →
  showLowCreditWarning (layout w') = false ∧ warningDismissed w' = false.
Proof.
  revert w. induction es as [|e es IH]; simpl; intros w Hes Hrun Hshow Hflag.
  - by simplify_eq.
  - apply andb_prop in Hes as [He Hes]. apply negb_true_iff in He.
    destruct (enabled e w) eqn:Hen; [|done].
    destruct (handle_hidden e w He Hen Hshow Hflag) as [Hshow' Hflag'].
    by apply (IH (handle e w)).
Qed.

Lemma handleBuyCreditsFromWarning_frame w :
  showLowCreditWarning (layout (handleBuyCreditsFromWarning w)) = false
  ∧ isSelectPlanModalOpen (layout (handleBuyCreditsFromWarning w)) = true
  ∧ sessionStorage (browser (handleBuyCreditsFromWarning w))
    = sessionStorage (browser w).
Proof. crush_handlers; by repeat split. Qed.

(** C10: buying credits from the warning hides the warning and opens the plan
    picker without touching the session flag. So in any state the layout can
    reach in which the warning is on screen, and whatever happens in between,
    the next run of the low-credit effect with a balance still in (0, 5]
    shows the warning again. *)
Theorem handleBuyCreditsFromWarning_reshows
    (b : Browser) (es between : list Event) (w w2 : World) (u : User.t) :
  run es (initialWorld b) = Some w →
  enabled WarningBuyCredits w = true →
  forallb (λ e, negb (isRecompute e)) between = true →
  run between (handle WarningBuyCredits w) = Some w2 →
  0 < User.credits u ≤ 5 →
  let w' := handle WarningBuyCredits w in
  w' = handleBuyCreditsFromWarning w
  ∧ showLowCreditWarning (layout w') = false
  ∧ isSelectPlanModalOpen (layout w') = true
  ∧ sessionStorage (browser w') = sessionStorage (browser w)
  ∧ warningDismissed w' = false
  ∧ showLowCreditWarning (layout (lowCreditEffect (Some u) w2)) = true.
Proof.
  intros Hrun Hshown Hbetween Hrun2 Hc w'.
  assert (Hflag : warningDismissed w = false).
  { eapply run_warningConsistent; [|exact Hrun|exact Hshown]. by intros ?. }
  destruct (handleBuyCreditsFromWarning_frame w) as (Hhidden & Hpicker & Hstorage).
  assert (Hkeep : warningDismissed w' = false).
  { rewrite <- Hflag. by apply warningDismissed_same_storage. }
  repeat split; [done..|].
  destruct (run_hidden between w' w2 Hbetween Hrun2 Hhidden Hkeep) as [_ Hflag2].
  rewrite lowCreditEffect_show, Hflag2.
  destruct Hc. replace (0 <? User.credits u) with true by lia.
  by replace (User.credits u <=? 5) with true by lia.
Qed.

Lemma handleBuyCreditsFromWarning_reshows_witness :
  ∃ w2,
    run [RunLowCreditEffect (Some (exampleUser 2)); WarningBuyCredits;
         SelectPlan examplePlan; PaymentClose; HeaderNavigate profile]
        (initialWorld freshBrowser) = Some w2
    ∧ showLowCreditWarning (layout w2) = false
    ∧ showLowCreditWarning (layout (lowCreditEffect (Some (exampleUser 2)) w2))
      = true.
Proof.
  eexists. split; [reflexivity|]. split; [reflexivity|].
  eapply (handleBuyCreditsFromWarning_reshows freshBrowser
            [RunLowCreditEffect (Some (exampleUser 2))]
            [SelectPlan examplePlan; PaymentClose; HeaderNavigate profile]).
  - reflexivity.
  - reflexivity.
  - reflexivity.
  - reflexivity.
  - simpl; lia.
Defined.

(** ** Toast selection *)

Section SortAny.
Context {A : Type} (comparefn : A → A → number).

Lemma sort_insert_perm x l : sort_insert comparefn x l ≡ₚ x :: l.
Proof.
  induction l as [|y l IH]; simpl; [done|].
  case_match; [done|]. rewrite IH. apply Permutation_swap.
Qed.

Lemma sort_perm l : sort comparefn l ≡ₚ l.
Proof.
  induction l as [|x l IH]; simpl; [done|].
  unfold sort in *. simpl. by rewrite sort_insert_perm, IH.
Qed.

Lemma sort_nil l : sort comparefn l = [] → l = [].
Proof.
  intros Hs. pose proof (sort_perm l) as Hp. rewrite Hs in Hp.
  by apply Permutation_nil_l in Hp.
Qed.
End SortAny.

(** The sorted array depends on the comparator's values on the array's
    elements only. *)
Lemma sort_insert_ext {A} (c1 c2 : A → A → number) x l :
  (∀ y, y ∈ l → c1 x y = c2 x y) → sort_insert c1 x l = sort_insert c2 x l.
Proof.
  induction l as [|y l IH]; intros Hc; simpl; [done|].
  unfold sortCompare. rewrite (Hc y) by (by left).
  case_match; [done|]. f_equal. apply IH. intros z Hz. apply Hc. by right.
Qed.

Lemma sort_ext {A} (c1 c2 : A → A → number) l :
  (∀ x y, x ∈ l → y ∈ l → c1 x y = c2 x y) → sort c1 l = sort c2 l.
Proof.
  induction l as [|x l IH]; intros Hc; [done|].
  unfold sort in *. simpl. rewrite IH.
  - apply sort_insert_ext. intros y Hy. apply Hc; [by left|].
    right. by rewrite <- (sort_perm c2 l).
  - intros y z Hy Hz. apply Hc; by right.
Qed.

Section Sorting.
Context {A : Type} (key : A → Z).

Let byKey (a b : A) : number := Some (key a - key b).

Lemma sort_insert_ascending x l :
  ascending key l → ascending key (sort_insert byKey x l).
Proof.
  induction 1 as [|y l Hl IH Hy]; simpl.
  - repeat constructor.
  - unfold sortCompare, byKey at 1. simpl. case_match.
    + constructor; [by constructor|].
      constructor; [lia|].
      eapply Forall_impl; [exact Hy|]. simpl. intros; lia.
    + constructor; [done|].
      rewrite sort_insert_perm. constructor; [lia|done].
Qed.

Lemma sort_ascending l : ascending key (sort byKey l).
Proof.
  induction l as [|x l IH]; [constructor|].
  by apply sort_insert_ascending.
Qed.

(** The first element of the sorted array is one of the elements and none
    has a smaller key. *)
Lemma sort_head x rest l :
  sort byKey l = x :: rest → x ∈ l ∧ ∀ y, y ∈ l → key x ≤ key y.
Proof.
  intros Hs. pose proof (sort_perm byKey l) as Hp.
  pose proof (sort_ascending l) as Ha.
  rewrite Hs in Hp, Ha. split.
  - rewrite <- Hp. by left.
  - intros y Hy. rewrite <- Hp in Hy.
    apply StronglySorted_inv in Ha as [_ Ha].
    apply elem_of_cons in Hy as [-> | Hy]; [lia|].
    rewrite Forall_forall in Ha. by apply Ha.
Qed.
End Sorting.

Section ToastSelection.
Variable getTime : string → number.

Let time (n : Notification.t) : Z := default 0 (getTime (Notification.createdAt n)).

Lemma isUnreadFor_spec u n :
  isUnreadFor u n = true
  ↔ Notification.read n = false ∧ Notification.userId n = User.id u.
Proof.
  unfold isUnreadFor. rewrite andb_true_iff, negb_true_iff, bool_decide_eq_true.
  done.
Qed.

Lemma filter_eligible u ns n :
  n ∈ List.filter (isUnreadFor u) ns ↔ eligible u ns n.
Proof.
  unfold eligible. by rewrite !list_elem_of_In, filter_In, isUnreadFor_spec.
Qed.

Lemma unreadOf_eligible u ns n : n ∈ unreadOf getTime u ns ↔ eligible u ns n.
Proof. unfold unreadOf. by rewrite sort_perm, filter_eligible. Qed.

(** When the dates of the eligible notifications are all dates, the
    comparator is the difference of their times. *)
Lemma unreadOf_parsable u ns :
  (∀ n, eligible u ns n → parsable getTime n) →
  unreadOf getTime u ns
  = sort (λ a b, Some (time a - time b)) (List.filter (isUnreadFor u) ns).
Proof.
  intros Hall. unfold unreadOf. apply sort_ext. intros a b Ha Hb.
  apply filter_eligible, Hall in Ha as [ta Hta].
  apply filter_eligible, Hall in Hb as [tb Htb].
  unfold byCreatedAt, time. by rewrite Hta, Htb.
Qed.

(** C2, amended: the notifications the effect considers are exactly the
    unread ones owned by the current user. With no toast active and at least
    one such notification, one of them becomes the active toast, with its id,
    message and type; when the creation dates of all of them are dates, it is
    one with the earliest creation time. With no such notification no toast is
    set. When the user or the list is absent (or a toast is already active)
    the effect changes nothing. *)
Theorem toastEffect_spec (user : option User.t)
    (notifications : option (list Notification.t)) (w : World) :
  let w' := toastEffect getTime user notifications w in
  (∀ u ns n, n ∈ unreadOf getTime u ns ↔ eligible u ns n)
  ∧ (user = None ∨ notifications = None → w' = w)
  ∧ (is_Some (activeToast (layout w)) → w' = w)
  ∧ (∀ u ns,
       user = Some u → notifications = Some ns →
       activeToast (layout w) = None →
       ((∃ n, eligible u ns n) →
          ∃ n, eligible u ns n
               ∧ activeToast (layout w')
                 = Some {| Toast.id := Notification.id n;
                           Toast.message := Notification.message n;
                           Toast.type := Notification.type n |}
               ∧ ((∀ m, eligible u ns m → parsable getTime m) →
                  ∃ tn, getTime (Notification.createdAt n) = Some tn
                        ∧ ∀ m tm, eligible u ns m →
                                  getTime (Notification.createdAt m) = Some tm →
                                  tn ≤ tm))
       ∧ ((∀ n, ¬ eligible u ns n) → w' = w)).
Proof.
  cbv zeta. split; [exact unreadOf_eligible|]. split; [|split].
  - unfold toastEffect. intros [-> | ->]; by repeat case_match.
  - unfold toastEffect. intros [t ->]. done.
  - intros u ns -> -> Hnone. unfold toastEffect. rewrite Hnone.
    destruct (unreadOf getTime u ns) as [|n rest] eqn:Hun.
    + split; [|done]. intros [n Hn].
      apply unreadOf_eligible in Hn. rewrite Hun in Hn. by apply elem_of_nil in Hn.
    + assert (Hn : eligible u ns n).
      { apply unreadOf_eligible. rewrite Hun. by left. }
      split.
      * intros _. exists n. split; [done|]. split; [done|].
        intros Hall. destruct (Hall n Hn) as [tn Htn]. exists tn.
        split; [done|]. intros m tm Hm Htm.
        rewrite (unreadOf_parsable u ns Hall) in Hun.
        apply (sort_head time) in Hun as [_ Hmin].
        apply filter_eligible in Hm. specialize (Hmin m Hm).
        unfold time in Hmin. by rewrite Htn, Htm in Hmin.
      * intros Hno. by destruct (Hno n).
Qed.
End ToastSelection.

(** Of the three unread notifications of [u1], [n4] and [n5] are the earliest;
    the sort is stable, so [n4] is shown. *)
Example toastEffect_example :
  activeToast (layout (toastEffect exampleGetTime (Some (exampleUser 3))
                         (Some exampleNotifications) (initialWorld freshBrowser)))
  = Some {| Toast.id := "n4"; Toast.message := "Credits added"; Toast.type := info |}.
Proof. reflexivity. Qed.

Lemma exampleNotifications_parsable m :
  eligible (exampleUser 3) exampleNotifications m → parsable exampleGetTime m.
Proof.
  intros [Hin _]. apply list_elem_of_In in Hin. simpl in Hin.
  destruct_or!; subst; by eexists.
Defined.

Lemma toastEffect_spec_witness :
  ∃ n, eligible (exampleUser 3) exampleNotifications n
       ∧ activeToast
           (layout (toastEffect exampleGetTime (Some (exampleUser 3))
                      (Some exampleNotifications) (initialWorld freshBrowser)))
         = Some {| Toast.id := Notification.id n;
                   Toast.message := Notification.message n;
                   Toast.type := Notification.type n |}
       ∧ ∃ tn, exampleGetTime (Notification.createdAt n) = Some tn
               ∧ ∀ m tm, eligible (exampleUser 3) exampleNotifications m →
                         exampleGetTime (Notification.createdAt m) = Some tm →
                         tn ≤ tm.
Proof.
  destruct (toastEffect_spec exampleGetTime (Some (exampleUser 3))
              (Some exampleNotifications) (initialWorld freshBrowser))
    as (_ & _ & _ & H).
  destruct (H (exampleUser 3) exampleNotifications eq_refl eq_refl eq_refl)
    as [Hsome _].
  destruct Hsome as (n & Hn & Htoast & Hearliest).
  - exists (exampleNotification "n1" "u1" "2024-01-02T00:00:00Z" false).
    split; [|split; reflexivity]. apply list_elem_of_In. simpl. tauto.
  - exists n. split; [exact Hn|]. split; [exact Htoast|].
    apply Hearliest. exact exampleNotifications_parsable.
Defined.

(** C2 as stated fails when a creation date is not a date: the comparator
    then returns NaN, which the sort takes for "equal". With [n1] (2 January),
    [nx] (not a date) and [n4] (1 January) in this order, [n1] becomes the
    toast although [n4] is earlier; with [nx] before [n4], [nx] becomes the
    toast although it has no creation time. *)
Lemma toastEffect_unparsable_date :
  (activeToast (layout (toastEffect exampleGetTime (Some (exampleUser 3))
                          (Some unparsableNotifications) (initialWorld freshBrowser)))
   = Some {| Toast.id := "n1"; Toast.message := "Credits added"; Toast.type := info |}
   ∧ eligible (exampleUser 3) unparsableNotifications
       (exampleNotification "n4" "u1" "2024-01-01T00:00:00Z" false)
   ∧ exampleGetTime "2024-01-02T00:00:00Z" = Some 1704153600000
   ∧ exampleGetTime "2024-01-01T00:00:00Z" = Some 1704067200000
   ∧ 1704067200000 < 1704153600000)
  ∧ (activeToast (layout (toastEffect exampleGetTime (Some (exampleUser 3))
                            (Some (drop 1 unparsableNotifications))
                            (initialWorld freshBrowser)))
     = Some {| Toast.id := "nx"; Toast.message := "Credits added"; Toast.type := info |}
     ∧ exampleGetTime "garbage" = None
     ∧ eligible (exampleUser 3) (drop 1 unparsableNotifications)
         (exampleNotification "n4" "u1" "2024-01-01T00:00:00Z" false)).
Proof.
  repeat split; try done.
  all: apply list_elem_of_In; simpl; tauto.
Qed.

(** ** Closing a toast *)

(** C9: closing the active toast calls [markNotificationsAsRead] with exactly
    that toast's id and clears the toast, whatever the id is. The handler does
    not look at the notification list, so the synthetic ids of the upload flow
    ([err-<timestamp>] of a rejected file, [succ-<timestamp>] of a published
    image) are passed on as well. *)
Theorem handleToastClose_spec (w : World) :
  (∀ t, activeToast (layout w) = Some t →
     effects (handleToastClose w)
       = effects w ++ [MarkNotificationsAsRead [Toast.id t]]
     ∧ activeToast (layout (handleToastClose w)) = None)
  ∧ (∀ now file,
       File.type file ∉ allowedTypes ∨ maxSize < File.size file →
       last (effects (handleToastClose (handleFileSelect now file w)))
       = Some (MarkNotificationsAsRead ["err-" +:+ pretty now]))
  ∧ (∀ now file dataUrl,
       imageFile (modal w) = Some file → trim (title (modal w)) ≠ [] →
       last (effects (handleToastClose
                        (submitAndRead (FileReader.Done dataUrl) now w)))
       = Some (MarkNotificationsAsRead ["succ-" +:+ pretty now])).
Proof.
  split; [|split].
  - intros t Ht. unfold handleToastClose, setActiveToast. rewrite Ht.
    simpl. by rewrite Ht.
  - intros now file Hbad. unfold handleFileSelect, includes.
    destruct (decide (File.type file ∈ allowedTypes)) as [Hin|Hout].
    + rewrite (bool_decide_eq_true_2 _ Hin). simpl.
      destruct Hbad as [?|Hbig]; [done|].
      replace (maxSize <? File.size file) with true by lia.
      unfold handleToastClose. simpl. by rewrite last_snoc.
    + rewrite (bool_decide_eq_false_2 _ Hout). simpl.
      unfold handleToastClose. simpl. by rewrite last_snoc.
  - intros now file dataUrl Hfile Htitle.
    unfold submitAndRead, handleSubmit. rewrite Hfile.
    destruct (trim (title (modal w))) eqn:Ht; [done|]. simpl.
    unfold handleToastClose. simpl. by rewrite last_snoc.
Qed.

Lemma handleToastClose_spec_witness :
  last (effects (handleToastClose
                   (handleFileSelect 1700000000000 (exampleFile "image/gif" 10)
                      (initialWorld freshBrowser))))
  = Some (MarkNotificationsAsRead ["err-1700000000000"]).
Proof.
  apply (handleToastClose_spec (initialWorld freshBrowser)).
  left. rewrite list_elem_of_In. simpl. intuition discriminate.
Defined.

(** ** File selection *)

Lemma includes_spec l s : includes l s = true ↔ s ∈ l.
Proof. unfold includes. apply bool_decide_eq_true. Qed.

Lemma handleFileSelect_bad_type now file w :
  File.type file ∉ allowedTypes →
  handleFileSelect now file w
  = setActiveToast (Some (errorToast now msgInvalidType)) w.
Proof.
  intros Hout. unfold handleFileSelect, includes.
  by rewrite (bool_decide_eq_false_2 _ Hout).
Qed.

Lemma handleFileSelect_too_large now file w :
  File.type file ∈ allowedTypes → maxSize < File.size file →
  handleFileSelect now file w
  = setActiveToast (Some (errorToast now msgTooLarge)) w.
Proof.
  intros Hin Hbig. unfold handleFileSelect, includes.
  rewrite (bool_decide_eq_true_2 _ Hin). simpl.
  by replace (maxSize <? File.size file) with true by lia.
Qed.

Lemma handleFileSelect_accepted now file w :
  File.type file ∈ allowedTypes → File.size file ≤ maxSize →
  handleFileSelect now file w
  = let w := setImageFile (Some file) w in
    let w := match previewUrl (modal w) with
             | Some u => revokeObjectURL u w
             | None => w
             end in
    setPreviewUrl (Some (nextURL (browser w))) (createObjectURL w).2.
Proof.
  intros Hin Hsmall. unfold handleFileSelect, includes.
  rewrite (bool_decide_eq_true_2 _ Hin). simpl.
  by replace (maxSize <? File.size file) with false by lia.
Qed.

(** C4: the MIME type is checked first and the size second. A type outside
    {image/jpeg, image/png, image/webp} is rejected with the error toast
    "Invalid file type. Use JPG, PNG, or WEBP."; otherwise a size above
    5 * 1024 * 1024 bytes is rejected with "File is too large. Max size is
    5MB.". A rejection stores no file and creates no preview: the object-URL
    store is as it was, and since the toast renders the layout again the modal
    is mounted anew, so its file, preview and title are back to the initial
    values. A file that passes both checks, a file of exactly 5 MiB included,
    is stored and gets a new, live preview URL, and no toast is shown. *)
Theorem handleFileSelect_spec (now : Z) (file : File.t) (w : World) :
  let w' := handleFileSelect now file w in
  let rejectedWith (msg : string) :=
    let toast := {| Toast.id := "err-" +:+ pretty now; Toast.message := msg;
                    Toast.type := error |} in
    activeToast (layout w') = Some toast
    ∧ effects w' = effects w ++ [ShowToast toast]
    ∧ imageFile (modal w') = None
    ∧ previewUrl (modal w') = None
    ∧ modal w' = initialUpload
    ∧ browser w' = browser w in
  (File.type file ∉ ["image/jpeg"; "image/png"; "image/webp"] →
     rejectedWith "Invalid file type. Use JPG, PNG, or WEBP.")
  ∧ (File.type file ∈ ["image/jpeg"; "image/png"; "image/webp"] →
     5 * 1024 * 1024 < File.size file →
     rejectedWith "File is too large. Max size is 5MB.")
  ∧ (File.type file ∈ ["image/jpeg"; "image/png"; "image/webp"] →
     File.size file ≤ 5 * 1024 * 1024 →
     imageFile (modal w') = Some file
     ∧ previewUrl (modal w') = Some (nextURL (browser w))
     ∧ nextURL (browser w) ∈ liveURLs (browser w')
     ∧ activeToast (layout w') = activeToast (layout w)
     ∧ effects w' = effects w).
Proof.
  cbv zeta. split; [|split].
  - intros Hout. by rewrite handleFileSelect_bad_type.
  - intros Hin Hbig. by rewrite handleFileSelect_too_large.
  - intros Hin Hsmall. rewrite handleFileSelect_accepted by done.
    destruct w as [l [f [u|] t ld] [st live next] eff]; simpl;
      repeat split; apply elem_of_union_l; by apply elem_of_singleton.
Qed.

Lemma handleFileSelect_spec_witness :
  let w := exampleJpegSelected [72; 105]%N in
  let w' := handleFileSelect 1700000000000
              (exampleFile "image/png" (6 * 1024 * 1024)) w in
  activeToast (layout w')
    = Some {| Toast.id := "err-1700000000000";
              Toast.message := "File is too large. Max size is 5MB.";
              Toast.type := error |}
  ∧ imageFile (modal w) = Some (exampleFile "image/jpeg" (2 * 1024 * 1024))
  ∧ modal w' = initialUpload
  ∧ browser w' = browser w.
Proof.
  destruct (handleFileSelect_spec 1700000000000
              (exampleFile "image/png" (6 * 1024 * 1024))
              (exampleJpegSelected [72; 105]%N)) as (_ & Hlarge & _).
  destruct Hlarge as (Htoast & _ & _ & _ & Hmodal & Hbrowser).
  - apply list_elem_of_In. simpl. tauto.
  - simpl. lia.
  - split; [exact Htoast|]. split; [reflexivity|]. split; [exact Hmodal|exact Hbrowser].
Defined.

(** A file of exactly 5 MiB is accepted. *)
Example handleFileSelect_exactly_5MiB :
  let w' := handleFileSelect 0 (exampleFile "image/webp" 5242880)
              (initialWorld freshBrowser) in
  imageFile (modal w') = Some (exampleFile "image/webp" 5242880)
  ∧ previewUrl (modal w') = Some 0%N
  ∧ effects w' = [].
Proof. done. Qed.

(** ** Submission *)

Lemma trimStart_nil s : trimStart s = [] ↔ forallb isWhiteSpace s = true.
Proof.
  induction s as [|c s IH]; simpl; [done|].
  destruct (isWhiteSpace c); simpl; [done|]. split; congruence.
Qed.

Lemma trimStart_head c s s' : trimStart s = c :: s' → isWhiteSpace c = false.
Proof.
  induction s as [|d s IH]; simpl; [done|].
  destruct (isWhiteSpace d) eqn:Hd; [done|]. congruence.
Qed.

(** A title trims to the empty string exactly when it consists of white
    space only. *)
Lemma trim_nil s : trim s = [] ↔ forallb isWhiteSpace s = true.
Proof.
  rewrite <- trimStart_nil. unfold trim, trimEnd. split.
  - intros H. destruct (trimStart s) as [|c s'] eqn:Hs; [done|].
    apply (f_equal (@rev N)) in H. rewrite rev_involutive in H. simpl in H.
    apply trimStart_nil in H.
    rewrite forallb_forall in H.
    apply trimStart_head in Hs. rewrite (H c) in Hs; [done|].
    apply in_or_app. right. by left.
  - by intros ->.
Qed.

(** C5: with no file selected, or a title that is blank after trimming,
    [handleSubmit] returns at its guard: the state is unchanged, no reader is
    started, so no collaborator call follows whatever a read would have
    given; and the submit button is disabled. In particular a white-space-only
    title with a valid file produces no registration call. *)
Theorem handleSubmit_guard (w : World) :
  (imageFile (modal w) = None ∨ trim (title (modal w)) = [] →
     handleSubmit w = (w, None)
     ∧ submitDisabled w = true
     ∧ ∀ o now, submitAndRead o now w = w)
  ∧ (forallb isWhiteSpace (title (modal w)) = true →
     ∀ o now imageUrl t,
       effects (submitAndRead o now w) = effects w
       ∧ (AddUserUploadedImage imageUrl t ∈ effects (submitAndRead o now w) →
          AddUserUploadedImage imageUrl t ∈ effects w)).
Proof.
  assert (Hguard : imageFile (modal w) = None ∨ trim (title (modal w)) = [] →
                   handleSubmit w = (w, None)).
  { unfold handleSubmit. intros [-> | ->]; [done|]. by case_match. }
  split.
  - intros H. split; [by apply Hguard|]. split.
    + unfold submitDisabled. destruct H as [-> | ->]; simpl;
        by rewrite ?orb_true_r.
    + intros o now. unfold submitAndRead. by rewrite Hguard.
  - intros Hws o now imageUrl t. apply trim_nil in Hws.
    unfold submitAndRead. rewrite Hguard by (by right). done.
Qed.

Lemma handleSubmit_guard_witness :
  let w := exampleJpegSelected [32; 9; 160; 32]%N in
  handleSubmit w = (w, None)
  ∧ submitDisabled w = true
  ∧ ∀ o now, submitAndRead o now w = w.
Proof.
  apply (handleSubmit_guard (exampleJpegSelected [32; 9; 160; 32]%N)).
  right. reflexivity.
Defined.

(** The guard passed: a file is selected and the title is not blank. *)
Lemma handleSubmit_started w file :
  imageFile (modal w) = Some file → trim (title (modal w)) ≠ [] →
  handleSubmit w
  = (setLoading true w,
     Some (FileReader.set_onerror submitOnerror
             (FileReader.set_onloadend (submitOnloadend (title (modal w)))
                FileReader.new),
           file)).
Proof.
  intros Hfile Htitle. unfold handleSubmit. rewrite Hfile.
  by destruct (trim (title (modal w))).
Qed.

(** The success half of C1: when the read succeeds, only [onloadend] runs;
    the image is registered once with the data URL and the title, the modal
    closes, and the one toast shown is the success toast. *)
Lemma submitAndRead_done (w : World) (file : File.t) (dataUrl : string) (now : Z) :
  imageFile (modal w) = Some file → trim (title (modal w)) ≠ [] →
  let w' := submitAndRead (FileReader.Done dataUrl) now w in
  let toast := {| Toast.id := "succ-" +:+ pretty now;
                  Toast.message := "Image successfully published to gallery!";
                  Toast.type := success |} in
  effects w'
    = effects w ++ [AddUserUploadedImage (Some dataUrl) (title (modal w));
                    ShowToast toast]
  ∧ isUploadModalOpen (layout w') = false
  ∧ activeToast (layout w') = Some toast.
Proof.
  intros Hfile Htitle. cbv zeta. unfold submitAndRead.
  rewrite (handleSubmit_started w file) by done.
  unfold FileReader.complete, FileReader.events, FileReader.result.
  cbn [foldl]. unfold FileReader.dispatch.
  cbn [FileReader.handlerOf FileReader.set_onerror FileReader.set_onloadend
       FileReader.new FileReader.onloadstart FileReader.onload
       FileReader.onloadend FileReader.onerror].
  unfold submitOnloadend. cbv zeta.
  destruct (setActiveToast_Some (successToast now msgPublished)
              (setUploadModalOpen false
                 (setLoading false
                    (emit (AddUserUploadedImage (Some dataUrl) (title (modal w)))
                       (setLoading true w)))))
    as (-> & -> & -> & _).
  destruct (setUploadModalOpen_layout false
              (setLoading false
                 (emit (AddUserUploadedImage (Some dataUrl) (title (modal w)))
                    (setLoading true w)))) as (-> & _).
  unfold setUploadModalOpen. rewrite setLayoutCell_effects. cbn [effects emit setLoading with_modal].
  by rewrite <- app_assoc.
Qed.

(** C1, the read-failure path: a failed read fires [error] and then
    [loadend], and [handleSubmit] put its success code on [onloadend]. So
    after the error toast "Failed to read file." the image is registered all
    the same, with a null data URL, the modal closes, and the success toast
    replaces the error toast. *)
Theorem submitAndRead_failed (w : World) (file : File.t) (now : Z) :
  imageFile (modal w) = Some file → trim (title (modal w)) ≠ [] →
  let w' := submitAndRead FileReader.Failed now w in
  let failed := {| Toast.id := "err-" +:+ pretty now;
                   Toast.message := "Failed to read file.";
                   Toast.type := error |} in
  let published := {| Toast.id := "succ-" +:+ pretty now;
                      Toast.message := "Image successfully published to gallery!";
                      Toast.type := success |} in
  effects w'
    = effects w ++ [ShowToast failed;
                    AddUserUploadedImage None (title (modal w));
                    ShowToast published]
  ∧ isUploadModalOpen (layout w') = false
  ∧ activeToast (layout w') = Some published.
Proof.
  intros Hfile Htitle. cbv zeta. unfold submitAndRead.
  rewrite (handleSubmit_started w file) by done.
  unfold FileReader.complete, FileReader.events, FileReader.result.
  cbn [foldl]. unfold FileReader.dispatch.
  cbn [FileReader.handlerOf FileReader.set_onerror FileReader.set_onloadend
       FileReader.new FileReader.onloadstart FileReader.onload
       FileReader.onloadend FileReader.onerror].
  unfold submitOnloadend, submitOnerror. cbv zeta.
  set (w1 := setActiveToast _ (setLoading false (setLoading true w))).
  set (w2 := setUploadModalOpen false _).
  destruct (setActiveToast_Some (successToast now msgPublished) w2)
    as (-> & -> & -> & _).
  destruct (setUploadModalOpen_layout false
              (setLoading false (emit (AddUserUploadedImage None (title (modal w))) w1)))
    as (Hclosed & _).
  subst w2. rewrite Hclosed.
  unfold setUploadModalOpen. rewrite setLayoutCell_effects.
  cbn [effects emit setLoading with_modal]. subst w1.
  destruct (setActiveToast_Some (errorToast now msgReadFailed)
              (setLoading false (setLoading true w))) as (-> & _).
  cbn [effects setLoading with_modal].
  by rewrite <- !app_assoc.
Qed.

Lemma submitAndRead_failed_witness :
  let w := exampleJpegSelected [83; 117; 110]%N in
  let w' := submitAndRead FileReader.Failed 1700000000000 w in
  AddUserUploadedImage None [83; 117; 110]%N ∈ effects w'
  ∧ isUploadModalOpen (layout w) = true
  ∧ isUploadModalOpen (layout w') = false.
Proof.
  destruct (submitAndRead_failed (exampleJpegSelected [83; 117; 110]%N)
              (exampleFile "image/jpeg" (2 * 1024 * 1024)) 1700000000000)
    as (Heff & Hclosed & _).
  - reflexivity.
  - discriminate.
  - cbv zeta. rewrite Heff. split; [|split; [reflexivity|exact Hclosed]].
    apply list_elem_of_In. simpl. tauto.
Defined.

(** ** Preview URLs *)

(** The replacement path: accepting a file revokes the preview URL it
    replaces. *)
Lemma handleFileSelect_revokes_previous now file w u :
  File.type file ∈ allowedTypes → File.size file ≤ maxSize →
  previewUrl (modal w) = Some u → u ≠ nextURL (browser w) →
  u ∉ liveURLs (browser (handleFileSelect now file w)).
Proof.
  intros Hin Hsmall Hu Hne. rewrite handleFileSelect_accepted by done.
  destruct w as [l [f pu t ld] [st live next] eff]; simpl in *. subst pu. simpl.
  rewrite elem_of_union, elem_of_singleton, elem_of_difference, elem_of_singleton.
  intros [?|[_ ?]]; done.
Qed.

Lemma handle_leaked u e w : leaked u w → leaked u (handle e w).
Proof.
  unfold leaked. destruct w as [l [f pu t ld] [st live next] eff].
  intros (Hlive & Hpu & Hlt); simpl in *.
  destruct e; crush_handlers.
  all: repeat split; try done; try lia.
  all: try (intros [= <-]; lia).
  all: apply elem_of_union_r; try done.
  apply elem_of_difference. split; [done|].
  rewrite elem_of_singleton. congruence.
Qed.

Lemma run_leaked u es w w' : leaked u w → run es w = Some w' → leaked u w'.
Proof.
  apply (run_invariant (leaked u)). intros e w0 Hw _. by apply handle_leaked.
Qed.

Lemma close_leaks_preview w u :
  isUploadModalOpen (layout w) = true →
  previewUrl (modal w) = Some u → u ∈ liveURLs (browser w) →
  (u < nextURL (browser w))%N →
  leaked u (setUploadModalOpen false w).
Proof.
  intros Hopen Hu Hlive Hlt. unfold setUploadModalOpen, setLayoutCell.
  rewrite Hopen. by repeat split.
Qed.

Lemma handle_previewTracked e w : previewTracked w → previewTracked (handle e w).
Proof.
  unfold previewTracked. destruct w as [l [f pu t ld] [st live next] eff].
  intros Hw; simpl in *.
  destruct e; crush_handlers.
  all: try (intros u [= <-]; split; [|lia];
            apply elem_of_union_l; by apply elem_of_singleton).
Qed.

Lemma run_previewTracked b es w :
  run es (initialWorld b) = Some w → previewTracked w.
Proof.
  apply (run_invariant previewTracked).
  - intros e w0 Hw _. by apply handle_previewTracked.
  - by intros u.
Qed.

(** C7, the close path: in any state the layout can reach with the upload
    modal open and a preview URL [u] in it, closing the modal does not revoke
    [u], and no later sequence of events does: [u] stays alive for good. *)
Theorem preview_url_leaks_on_close
    (b : Browser) (before after : list Event) (w w' : World) (u : ObjectURL) :
  run before (initialWorld b) = Some w →
  isUploadModalOpen (layout w) = true →
  previewUrl (modal w) = Some u →
  run (UploadClose :: after) w = Some w' →
  u ∈ liveURLs (browser (handle UploadClose w))
  ∧ previewUrl (modal (handle UploadClose w)) = None
  ∧ u ∈ liveURLs (browser w').
Proof.
  intros Hreach Hopen Hu Hrun.
  destruct (run_previewTracked b before w Hreach u Hu) as [Hlive Hlt].
  pose proof (close_leaks_preview w u Hopen Hu Hlive Hlt) as Hleak.
  simpl in Hrun. rewrite Hopen in Hrun.
  split; [apply Hleak|]. split.
  - unfold handle, setUploadModalOpen, setLayoutCell. by rewrite Hopen.
  - by apply (run_leaked u after _ w' Hleak).
Qed.

Lemma preview_url_leaks_on_close_witness :
  ∃ w', run [HeaderUploadImage;
             UploadFileChange 0 [exampleFile "image/png" 1024];
             UploadClose;
             HeaderUploadImage;
             UploadFileChange 1 [exampleFile "image/jpeg" 2048];
             UploadFileChange 2 [exampleFile "image/webp" 4096]]
            (initialWorld freshBrowser) = Some w'
        ∧ 0%N ∈ liveURLs (browser w').
Proof.
  pose (before := [HeaderUploadImage;
                   UploadFileChange 0 [exampleFile "image/png" 1024]]).
  pose (after := [HeaderUploadImage;
                  UploadFileChange 1 [exampleFile "image/jpeg" 2048];
                  UploadFileChange 2 [exampleFile "image/webp" 4096]]).
  let r1 := eval vm_compute in (run before (initialWorld freshBrowser)) in
  lazymatch r1 with
  | Some ?w1 =>
      let r2 := eval vm_compute in (run (UploadClose :: after) w1) in
      lazymatch r2 with
      | Some ?w2 =>
          exists w2; split; [vm_compute; reflexivity|];
          apply (preview_url_leaks_on_close freshBrowser before after w1 w2 0%N);
          vm_compute; reflexivity
      end
  end.
Defined.

(** After that run the first preview is still alive, the second was revoked
    when the third replaced it, and the third is the one shown. *)
Example preview_urls_after_reopen :
  (λ w, (bool_decide (0%N ∈ liveURLs (browser w)),
         bool_decide (1%N ∈ liveURLs (browser w)),
         bool_decide (2%N ∈ liveURLs (browser w)),
         previewUrl (modal w))) <$>
    run [HeaderUploadImage;
         UploadFileChange 0 [exampleFile "image/png" 1024];
         UploadClose;
         HeaderUploadImage;
         UploadFileChange 1 [exampleFile "image/jpeg" 2048];
         UploadFileChange 2 [exampleFile "image/webp" 4096]]
        (initialWorld freshBrowser)
  = Some (true, false, true, Some 2%N).
Proof. vm_compute. reflexivity. Qed.

(** ** Plan selection and payment *)

Lemma handle_selectedPlan e w plan :
  isPaying plan (handle e w) → isPaying plan w ∨ e = SelectPlan plan.
Proof.
  unfold isPaying. destruct w as [l m b eff].
  destruct e; crush_handlers; auto.
  all: try (intros [= ->]; by right).
Qed.

(** A plan in the payment slot at the end of a run was either there at the
    start or was chosen during the run, in a state with the picker open. *)
Lemma run_paying_origin es w0 w plan :
  run es w0 = Some w → isPaying plan w →
  isPaying plan w0
  ∨ ∃ pre post wp,
      es = pre ++ SelectPlan plan :: post
      ∧ run pre w0 = Some wp
      ∧ isSelectPlanModalOpen (layout wp) = true.
Proof.
  revert w0. induction es as [|e es IH]; simpl; intros w0 Hrun Hpay.
  - left. by simplify_eq.
  - destruct (enabled e w0) eqn:He; [|done].
    destruct (IH _ Hrun Hpay) as [Hnow | (pre & post & wp & -> & Hpre & Hopen)].
    + apply handle_selectedPlan in Hnow as [Hold | ->]; [by left|].
      right. by exists [], es, w0.
    + right. exists (e :: pre), post, wp. simpl. by rewrite He.
Qed.

(** C6 as stated fails in its third part: with the picker reopened from the
    header while the payment modal is open, closing the payment modal leaves
    the picker open, not the idle state. *)
Lemma paymentClose_not_idle :
  ∃ w, run [HeaderBuyCredits; SelectPlan examplePlan; HeaderBuyCredits]
           (initialWorld freshBrowser) = Some w
       ∧ enabled PaymentClose w = true
       ∧ ¬ isIdle (handle PaymentClose w)
       ∧ isPicking (handle PaymentClose w).
Proof.
  eexists. split; [reflexivity|]. split; [reflexivity|].
  split; [|by split]. by intros [? _].
Qed.

(** C6, amended: along every run from the initial state, a plan is in the
    payment modal only if it was chosen in the plan picker earlier in the run,
    in a state with the picker open. Choosing a plan closes the picker and
    opens the payment modal for that plan in one step. Closing the payment
    modal empties the plan slot and leaves the picker flag as it was, so the
    flow is idle afterwards when the picker was closed. The slot holds at most
    one plan, so at most one payment modal is on screen. *)
Theorem planFlow_spec (b : Browser) (es : list Event) (w : World) :
  run es (initialWorld b) = Some w →
  (∀ plan, isPaying plan w →
     ∃ pre post wp,
       es = pre ++ SelectPlan plan :: post
       ∧ run pre (initialWorld b) = Some wp
       ∧ isSelectPlanModalOpen (layout wp) = true)
  ∧ (∀ plan, enabled (SelectPlan plan) w = true →
       isSelectPlanModalOpen (layout (handle (SelectPlan plan) w)) = false
       ∧ paymentModals (handle (SelectPlan plan) w) = [plan])
  ∧ (enabled PaymentClose w = true →
       paymentModals (handle PaymentClose w) = []
       ∧ isSelectPlanModalOpen (layout (handle PaymentClose w))
         = isSelectPlanModalOpen (layout w)
       ∧ (isSelectPlanModalOpen (layout w) = false → isIdle (handle PaymentClose w)))
  ∧ (length (paymentModals w) ≤ 1)%nat.
Proof.
  intros Hrun. split; [|split; [|split]].
  - intros plan Hpay.
    by destruct (run_paying_origin _ _ _ _ Hrun Hpay) as [Hinit | ?].
  - intros plan _. clear Hrun. unfold paymentModals.
    destruct w as [[p up act sh sp pl] m br eff].
    crush_handlers; by repeat split.
  - intros _. clear Hrun. unfold paymentModals, isIdle.
    destruct w as [[p up act sh sp pl] m br eff].
    crush_handlers; by repeat split.
  - unfold paymentModals. case_match; simpl; lia.
Qed.

Lemma planFlow_spec_witness :
  ∃ pre post wp,
    [HeaderBuyCredits; SelectPlan examplePlan]
      = pre ++ SelectPlan examplePlan :: post
    ∧ run pre (initialWorld freshBrowser) = Some wp
    ∧ isSelectPlanModalOpen (layout wp) = true.
Proof.
  eapply (planFlow_spec freshBrowser [HeaderBuyCredits; SelectPlan examplePlan]).
  - reflexivity.
  - reflexivity.
Defined.

(** ** Page routing *)

(** C8 as stated fails for the profile page: its navigate-back callback leads
    to the generator page, not to the support page. *)
Lemma profile_navigateBack_not_support :
  enabled (PageInvoke onNavigateBack) (onPage profile) = true
  ∧ currentPage (layout (handle (PageInvoke onNavigateBack) (onPage profile)))
    = generator
  ∧ currentPage (layout (handle (PageInvoke onNavigateBack) (onPage profile)))
    ≠ support.
Proof. done. Qed.

(** C8, amended: for every value of the current page exactly one page
    element is mounted, the one of that page. Navigate-back leads from
    profile to generator, from support to profile, from favorites to
    generator and from gallery to generator; the profile page has a separate
    navigate-to-support callback that leads to support; the generator page has
    no navigate-back callback. *)
Theorem routing_spec (w : World) :
  let back := handle (PageInvoke onNavigateBack) w in
  (∃ e, routedPages w = [e] ∧ elementPage e = currentPage (layout w))
  ∧ (currentPage (layout w) = profile →
       enabled (PageInvoke onNavigateBack) w = true
       ∧ currentPage (layout back) = generator
       ∧ enabled (PageInvoke onNavigateToSupport) w = true
       ∧ currentPage (layout (handle (PageInvoke onNavigateToSupport) w)) = support)
  ∧ (currentPage (layout w) = support →
       enabled (PageInvoke onNavigateBack) w = true
       ∧ currentPage (layout back) = profile)
  ∧ (currentPage (layout w) = favorites →
       enabled (PageInvoke onNavigateBack) w = true
       ∧ currentPage (layout back) = generator)
  ∧ (currentPage (layout w) = gallery →
       enabled (PageInvoke onNavigateBack) w = true
       ∧ currentPage (layout back) = generator)
  ∧ (currentPage (layout w) = generator →
       enabled (PageInvoke onNavigateBack) w = false).
Proof.
  cbv zeta. unfold enabled, handle, pageCallback, routedPages.
  destruct w as [[p ? ? ? ? ?] m b eff]; simpl.
  split; [destruct p; simpl; eauto|].
  repeat split; intros; by subst.
Qed.

Lemma routing_spec_witness :
  currentPage (layout (handle (PageInvoke onNavigateBack) (onPage support)))
  = profile.
Proof.
  apply (routing_spec (onPage support)). reflexivity.
Defined.


(** * Further properties of the layout *)

Lemma run_invariant_on (P : Event → bool) (I : World → Prop) :
  (∀ e w, P e = true → I w → enabled e w = true → I (handle e w)) →
  ∀ es w w', forallb P es = true → I w → run es w = Some w' → I w'.
Proof.
  intros Hstep es. induction es as [|e es IH]; simpl; intros w w' Hes Hw Hrun.
  - by simplify_eq.
  - apply andb_prop in Hes as [He Hes].
    destruct (enabled e w) eqn:Hen; [|done]. eauto.
Qed.

(** ** Session storage *)

Lemma handle_keeps_other_keys k e w :
  k ≠ dismissKey → getItem k (handle e w) = getItem k w.
Proof.
  intros Hk. unfold getItem. destruct w as [l m [st live next] eff].
  destruct e; crush_handlers.
  all: try (by rewrite lookup_insert_ne).
  all: by rewrite lookup_delete_ne.
Qed.

(** X1: the layout owns one session-storage key. Whatever sequence of events
    runs, every key other than [lowCreditWarningDismissed] reads as it did
    before. *)
Theorem run_keeps_other_keys (k : string) (es : list Event) (w w' : World) :
  k ≠ dismissKey → run es w = Some w' → getItem k w' = getItem k w.
Proof.
  intros Hk Hrun.
  apply (run_invariant (λ w0, getItem k w0 = getItem k w) ) with es w;
    [|done|done].
  intros e w0 Hw0 _. by rewrite handle_keeps_other_keys.
Qed.

Lemma run_keeps_other_keys_witness :
  ∃ w', run [RunLowCreditEffect (Some (exampleUser 3)); WarningDismiss;
             RunLowCreditEffect (Some (exampleUser 9))]
            (initialWorld exampleStorage) = Some w'
        ∧ getItem "theme" w' = Some "dark".
Proof.
  eexists. split; [reflexivity|].
  erewrite (run_keeps_other_keys "theme"
              [RunLowCreditEffect (Some (exampleUser 3)); WarningDismiss;
               RunLowCreditEffect (Some (exampleUser 9))]
              (initialWorld exampleStorage)).
  - reflexivity.
  - discriminate.
  - reflexivity.
Defined.

(** ** Dismissing the warning *)

Lemma handle_stays_dismissed e w :
  replenishes e = false → enabled e w = true →
  showLowCreditWarning (layout w) = false ∧ warningDismissed w = true →
  showLowCreditWarning (layout (handle e w)) = false
  ∧ warningDismissed (handle e w) = true.
Proof.
  intros He Hen [Hshow Hflag].
  destruct e; try (simpl in Hen; congruence).
  all: try (split; [|rewrite <- Hflag; apply warningDismissed_same_storage];
            by crush_handlers).
  destruct user as [u|]; [|done]. unfold handle.
  rewrite lowCreditEffect_show, lowCreditEffect_dismissed.
  change (warningDismissed (rerender w)) with (warningDismissed w).
  rewrite Hflag. simpl in He. rewrite He. by rewrite andb_false_r.
Qed.

(** X2: once the warning is dismissed it stays hidden and the session flag
    stays set, whatever happens, as long as no run of the low-credit effect
    sees a balance above 5: balance changes within [0, 5], a user change or a
    log-out do not bring the warning back. *)
Theorem dismissal_persists (es : list Event) (w w' : World) :
  forallb (λ e, negb (replenishes e)) es = true →
  run es (handleDismissLowCreditWarning w) = Some w' →
  showLowCreditWarning (layout w') = false ∧ warningDismissed w' = true.
Proof.
  intros Hes Hrun.
  apply (run_invariant_on (λ e, negb (replenishes e))
           (λ w0, showLowCreditWarning (layout w0) = false
                  ∧ warningDismissed w0 = true))
    with es (handleDismissLowCreditWarning w); [|done| |done].
  - intros e w0 He Hw0 Hen. apply negb_true_iff in He.
    by apply handle_stays_dismissed.
  - split; [|apply warningDismissed_setItem].
    unfold handleDismissLowCreditWarning. apply setShowLowCreditWarning_show.
Qed.

Lemma dismissal_persists_witness :
  ∃ w', run [RunLowCreditEffect (Some (exampleUser 4)); HeaderBuyCredits;
             RunLowCreditEffect None; RunLowCreditEffect (Some (exampleUser 1))]
            (handleDismissLowCreditWarning
               (lowCreditEffect (Some (exampleUser 5)) (initialWorld freshBrowser)))
          = Some w'
        ∧ showLowCreditWarning (layout w') = false.
Proof.
  eexists. split; [reflexivity|].
  eapply (dismissal_persists
            [RunLowCreditEffect (Some (exampleUser 4)); HeaderBuyCredits;
             RunLowCreditEffect None; RunLowCreditEffect (Some (exampleUser 1))]).
  - reflexivity.
  - reflexivity.
Defined.

(** X3: in every state the layout can reach, the warning is on screen only
    while the session flag is not set. *)
Theorem warning_shown_not_dismissed (b : Browser) (es : list Event) (w : World) :
  run es (initialWorld b) = Some w →
  showLowCreditWarning (layout w) = true →
  getItem dismissKey w ≠ Some "true"%string.
Proof.
  intros Hrun Hshow.
  assert (Hc : warningConsistent (initialWorld b)) by (by intros ?).
  pose proof (run_warningConsistent es _ w Hc Hrun Hshow) as Hflag.
  by apply bool_decide_eq_false in Hflag.
Qed.

Lemma warning_shown_not_dismissed_witness :
  getItem dismissKey
    (lowCreditEffect (Some (exampleUser 2))
       (lowCreditEffect (Some (exampleUser 8))
          (handleDismissLowCreditWarning
             (lowCreditEffect (Some (exampleUser 1)) (initialWorld freshBrowser)))))
  ≠ Some "true"%string.
Proof.
  apply (warning_shown_not_dismissed freshBrowser
           [RunLowCreditEffect (Some (exampleUser 1)); WarningDismiss;
            RunLowCreditEffect (Some (exampleUser 8));
            RunLowCreditEffect (Some (exampleUser 2))]).
  - reflexivity.
  - reflexivity.
Defined.


(** ** Registrations *)

Lemma handle_registrationsTitled e w :
  registrationsTitled w → registrationsTitled (handle e w).
Proof.
  unfold registrationsTitled. intros Hw.
  destruct w as [l [f pu t ld] b eff]; simpl in *.
  destruct e; crush_handlers.
  all: intros imageUrl t'; rewrite ?elem_of_app, ?list_elem_of_singleton.
  all: intros Hin; destruct_or!; simplify_eq; eauto.
  all: by destruct (trim t).
Qed.

Lemma handle_registrations e w :
  (length (registrations (handle e w))
   ≤ length (registrations w) + (if isSubmit e then 1 else 0))%nat.
Proof.
  unfold registrations. destruct w as [l m b eff]; simpl.
  destruct e; crush_handlers.
  all: rewrite ?List.filter_app, ?length_app; simpl; lia.
Qed.

(** X4: every image the layout has registered carries a title that is not
    blank after trimming, and there is at most one registration for each
    submission of the upload form: no other event registers an image. *)
Theorem registrations_come_from_submissions
    (b : Browser) (es : list Event) (w : World) :
  run es (initialWorld b) = Some w →
  (∀ imageUrl t, AddUserUploadedImage imageUrl t ∈ effects w → trim t ≠ [])
  ∧ (length (registrations w) ≤ length (List.filter isSubmit es))%nat.
Proof.
  intros Hrun. split.
  - apply (run_invariant registrationsTitled) with es (initialWorld b); [| |done].
    + intros e w0 Hw0 _. by apply handle_registrationsTitled.
    + intros imageUrl t Hin. by apply elem_of_nil in Hin.
  - assert (Hgen : ∀ es w0 w1, run es w0 = Some w1 →
              (length (registrations w1)
               ≤ length (registrations w0) + length (List.filter isSubmit es))%nat).
    { clear. intros es. induction es as [|e es IH]; simpl; intros w0 w1 Hrun.
      - simplify_eq. lia.
      - destruct (enabled e w0); [|done]. apply IH in Hrun.
        pose proof (handle_registrations e w0).
        destruct (isSubmit e); simpl; lia. }
    apply Hgen in Hrun. simpl in Hrun. lia.
Qed.

Lemma registrations_come_from_submissions_witness :
  ∃ w, run [HeaderUploadImage;
            UploadFileChange 0 [exampleFile "image/png" 1024];
            UploadSubmit (FileReader.Done "data:image/png;base64,AAAA") 1;
            UploadTitleChange [72; 105]%N;
            UploadSubmit (FileReader.Done "data:image/png;base64,AAAA") 2]
           (initialWorld freshBrowser) = Some w
       ∧ registrations w
         = [AddUserUploadedImage (Some "data:image/png;base64,AAAA") [72; 105]%N]
       ∧ (length (registrations w) ≤ 2)%nat.
Proof.
  eexists. split; [reflexivity|]. split; [reflexivity|].
  eapply (registrations_come_from_submissions freshBrowser
            [HeaderUploadImage;
             UploadFileChange 0 [exampleFile "image/png" 1024];
             UploadSubmit (FileReader.Done "data:image/png;base64,AAAA") 1;
             UploadTitleChange [72; 105]%N;
             UploadSubmit (FileReader.Done "data:image/png;base64,AAAA") 2]).
  reflexivity.
Defined.


(** ** Toasts and mark-as-read *)

Lemma handle_marksShown e w : marksShown w → marksShown (handle e w).
Proof.
  unfold marksShown. destruct w as [[p up act sh sp pl] m b eff]; simpl.
  intros [Hactive Hmarks].
  destruct e; crush_handlers.
  all: split;
    [ intros shown; rewrite ?elem_of_app, ?list_elem_of_singleton;
      intros ?; simplify_eq; eauto
    | intros ids; rewrite ?elem_of_app, ?list_elem_of_singleton;
      intros Hin; destruct_or!; simplify_eq ].
  all: try (destruct (Hmarks ids) as (t' & -> & Ht'); [done|];
            exists t'; split; [done|];
            rewrite ?elem_of_app, ?list_elem_of_singleton; tauto).
  exists t. split; [done|]. rewrite elem_of_app. left. by apply Hactive.
Qed.

(** X5: in every state the layout can reach, every [markNotificationsAsRead]
    call so far was made with exactly one id, the id of a toast that was put
    on screen. *)
Theorem marks_only_shown_toasts (b : Browser) (es : list Event) (w : World) :
  run es (initialWorld b) = Some w →
  ∀ ids, MarkNotificationsAsRead ids ∈ effects w →
         ∃ t, ids = [Toast.id t] ∧ ShowToast t ∈ effects w.
Proof.
  intros Hrun.
  apply (run_invariant marksShown) with es (initialWorld b); [| |done].
  - intros e w0 Hw0 _. by apply handle_marksShown.
  - split; [done|]. intros ids Hin. by apply elem_of_nil in Hin.
Qed.

Lemma marks_only_shown_toasts_witness :
  ∃ w t, run [RunToastEffect exampleGetTime (Some (exampleUser 3))
                (Some exampleNotifications);
              ToastClose]
             (initialWorld freshBrowser) = Some w
         ∧ MarkNotificationsAsRead ["n4"] ∈ effects w
         ∧ ["n4"] = [Toast.id t] ∧ ShowToast t ∈ effects w.
Proof.
  eexists. 
  assert (Hin : MarkNotificationsAsRead ["n4"]
                ∈ [ShowToast {| Toast.id := "n4"; Toast.message := "Credits added";
                                Toast.type := info |};
                   MarkNotificationsAsRead ["n4"]]).
  { apply list_elem_of_In. simpl. tauto. }
  destruct (marks_only_shown_toasts freshBrowser
              [RunToastEffect exampleGetTime (Some (exampleUser 3))
                 (Some exampleNotifications); ToastClose]
              _ eq_refl ["n4"] Hin) as (t & Hid & Hshown).
  exists t. split; [reflexivity|]. split; [exact Hin|]. split; [exact Hid|exact Hshown].
Defined.

(** X6: an upload error toast takes the place of a notification toast
    without marking the notification as read. After the error toast is
    closed, the toast effect (with the same user and list) shows the displaced
    notification again; the only id passed to mark-as-read in between is the
    error toast's. *)
Theorem displaced_notification_returns
    (getTime : string → number) (u : User.t) (ns : list Notification.t)
    (n : Notification.t) (rest : list Notification.t)
    (now : Z) (file : File.t) (w : World) :
  unreadOf getTime u ns = n :: rest →
  activeToast (layout w) = Some (toastOf n) →
  File.type file ∉ allowedTypes ∨ maxSize < File.size file →
  let rejected := handleFileSelect now file w in
  let closed := handleToastClose rejected in
  let again := toastEffect getTime (Some u) (Some ns) closed in
  (∃ msg, activeToast (layout rejected) = Some (errorToast now msg)
          ∧ effects closed
            = effects w ++ [ShowToast (errorToast now msg);
                            MarkNotificationsAsRead ["err-" +:+ pretty now]])
  ∧ activeToast (layout closed) = None
  ∧ activeToast (layout again) = Some (toastOf n).
Proof.
  intros Hun Hactive Hbad. cbv zeta.
  assert (Hrej : ∃ msg, handleFileSelect now file w
                        = setActiveToast (Some (errorToast now msg)) w).
  { destruct (decide (File.type file ∈ allowedTypes)) as [Hin|Hout].
    - destruct Hbad as [?|Hbig]; [done|].
      exists msgTooLarge. by apply handleFileSelect_too_large.
    - exists msgInvalidType. by apply handleFileSelect_bad_type. }
  destruct Hrej as [msg ->].
  split; [exists msg; split; [done|]|split; [done|]].
  - unfold handleToastClose. simpl. by rewrite <- app_assoc.
  - unfold toastEffect, handleToastClose. simpl. by rewrite Hun.
Qed.

Lemma displaced_notification_returns_witness :
  let shown := toastEffect exampleGetTime (Some (exampleUser 3))
                 (Some exampleNotifications) (initialWorld freshBrowser) in
  let closed := handleToastClose
                  (handleFileSelect 7 (exampleFile "text/plain" 10) shown) in
  activeToast (layout closed) = None
  ∧ activeToast (layout (toastEffect exampleGetTime (Some (exampleUser 3))
                           (Some exampleNotifications) closed))
    = activeToast (layout shown).
Proof.
  destruct (displaced_notification_returns exampleGetTime (exampleUser 3)
              exampleNotifications
              (exampleNotification "n4" "u1" "2024-01-01T00:00:00Z" false)
              [exampleNotification "n5" "u1" "2024-01-01T00:00:00Z" false;
               exampleNotification "n1" "u1" "2024-01-02T00:00:00Z" false]
              7 (exampleFile "text/plain" 10)
              (toastEffect exampleGetTime (Some (exampleUser 3))
                 (Some exampleNotifications) (initialWorld freshBrowser)))
    as (_ & Hclosed & Hagain).
  - reflexivity.
  - reflexivity.
  - left. rewrite list_elem_of_In. simpl. intuition discriminate.
  - split; [exact Hclosed|exact Hagain].
Defined.


(** ** Which notification is shown *)

Section StableHead.
Context {A : Type} (key : A → Z).

(** The head of the sorted array is the first element of the array with the
    smallest key. *)
Lemma sort_head_first x rest l :
  sort (λ a b, Some (key a - key b)) l = x :: rest →
  ∃ l1 l2, l = l1 ++ x :: l2
           ∧ (∀ y, y ∈ l1 → key x < key y)
           ∧ (∀ y, y ∈ l2 → key x ≤ key y).
Proof.
  revert x rest. induction l as [|a l IH]; intros x rest Hs; [done|].
  unfold sort in Hs. simpl in Hs.
  fold (sort (λ a b, Some (key a - key b)) l) in Hs.
  destruct (sort (λ a b, Some (key a - key b)) l) as [|y r] eqn:Hl.
  - apply sort_nil in Hl as ->. simpl in Hs. simplify_eq.
    exists [], []. split; [done|]. split; intros y Hy; by apply elem_of_nil in Hy.
  - simpl in Hs. unfold sortCompare in Hs. simpl in Hs.
    destruct (key a - key y <=? 0) eqn:Hle.
    + simplify_eq. exists [], l. split; [done|]. split.
      * intros z Hz. by apply elem_of_nil in Hz.
      * intros z Hz. apply sort_head in Hl as [_ Hmin].
        specialize (Hmin z Hz). lia.
    + simplify_eq. destruct (IH x r eq_refl) as (l1 & l2 & -> & Hbefore & Hafter).
      exists (a :: l1), l2. split; [done|]. split; [|done].
      intros z Hz. apply elem_of_cons in Hz as [-> | Hz]; [lia|by apply Hbefore].
Qed.
End StableHead.

(** X7: when the creation dates of the user's unread notifications are all
    dates and the toast effect sets a toast, the toast carries the id, message
    and type of the first notification, in list order, among those with the
    earliest creation time: the unread notifications before it in the list
    are strictly later, those after it are not earlier. *)
Theorem toastEffect_picks_first_earliest
    (getTime : string → number) (u : User.t) (ns : list Notification.t)
    (w : World) (t : Toast.t) :
  activeToast (layout w) = None →
  (∀ m, eligible u ns m → parsable getTime m) →
  activeToast (layout (toastEffect getTime (Some u) (Some ns) w)) = Some t →
  ∃ n tn before after,
    t = {| Toast.id := Notification.id n; Toast.message := Notification.message n;
           Toast.type := Notification.type n |}
    ∧ List.filter (isUnreadFor u) ns = before ++ n :: after
    ∧ getTime (Notification.createdAt n) = Some tn
    ∧ (∀ m, m ∈ before →
         ∃ tm, getTime (Notification.createdAt m) = Some tm ∧ tn < tm)
    ∧ (∀ m, m ∈ after →
         ∃ tm, getTime (Notification.createdAt m) = Some tm ∧ tn ≤ tm).
Proof.
  intros Hnone Hall. unfold toastEffect. rewrite Hnone.
  destruct (unreadOf getTime u ns) as [|n rest] eqn:Hun.
  - rewrite Hnone. done.
  - destruct (setActiveToast_Some (toastOf n) w) as (_ & -> & _).
    intros [= <-].
    rewrite (unreadOf_parsable getTime u ns Hall) in Hun.
    apply (sort_head_first
             (λ n, default 0 (getTime (Notification.createdAt n)))) in Hun
      as (before & after & Hsplit & Hb & Ha).
    assert (Hparsable : ∀ m, m ∈ List.filter (isUnreadFor u) ns →
                             parsable getTime m).
    { intros m Hm. by apply Hall, filter_eligible. }
    destruct (Hparsable n) as [tn Htn].
    { rewrite Hsplit, elem_of_app. right. by left. }
    exists n, tn, before, after. split; [done|]. split; [done|].
    split; [done|]. split.
    + intros m Hm. destruct (Hparsable m) as [tm Htm].
      { rewrite Hsplit, elem_of_app. by left. }
      exists tm. split; [done|]. specialize (Hb m Hm).
      by rewrite Htn, Htm in Hb.
    + intros m Hm. destruct (Hparsable m) as [tm Htm].
      { rewrite Hsplit, elem_of_app. right. by right. }
      exists tm. split; [done|]. specialize (Ha m Hm).
      by rewrite Htn, Htm in Ha.
Qed.

Lemma toastEffect_picks_first_earliest_witness :
  ∃ n tn before after,
    {| Toast.id := "n4"; Toast.message := "Credits added"; Toast.type := info |}
      = {| Toast.id := Notification.id n; Toast.message := Notification.message n;
           Toast.type := Notification.type n |}
    ∧ List.filter (isUnreadFor (exampleUser 3)) exampleNotifications
      = before ++ n :: after
    ∧ exampleGetTime (Notification.createdAt n) = Some tn
    ∧ (∀ m, m ∈ before →
         ∃ tm, exampleGetTime (Notification.createdAt m) = Some tm ∧ tn < tm)
    ∧ (∀ m, m ∈ after →
         ∃ tm, exampleGetTime (Notification.createdAt m) = Some tm ∧ tn ≤ tm).
Proof.
  apply (toastEffect_picks_first_earliest exampleGetTime (exampleUser 3)
           exampleNotifications (initialWorld freshBrowser)).
  - reflexivity.
  - exact exampleNotifications_parsable.
  - reflexivity.
Defined.

(** ** The submit button *)

(** X8: the submit button is enabled exactly when no read is under way, a
    file is selected and the title has a character that is not white space;
    and whenever it is enabled, a submission passes the guard and starts a
    read of the selected file. *)
Theorem submit_enabled_iff (w : World) :
  (submitDisabled w = false
   ↔ loading (modal w) = false
     ∧ is_Some (imageFile (modal w))
     ∧ ∃ c, c ∈ title (modal w) ∧ isWhiteSpace c = false)
  ∧ (submitDisabled w = false →
     ∃ reader file, imageFile (modal w) = Some file
                    ∧ (handleSubmit w).2 = Some (reader, file)).
Proof.
  assert (Hblank : isEmpty (trim (title (modal w))) = false
                   ↔ ∃ c, c ∈ title (modal w) ∧ isWhiteSpace c = false).
  { rewrite <- not_true_iff_false.
    assert (isEmpty (trim (title (modal w))) = true
            ↔ forallb isWhiteSpace (title (modal w)) = true) as ->.
    { rewrite <- trim_nil. by destruct (trim (title (modal w))). }
    rewrite forallb_forall. split.
    - intros Hnot. induction (title (modal w)) as [|c s IH].
      + exfalso. apply Hnot. by intros ? [].
      + destruct (isWhiteSpace c) eqn:Hc.
        * destruct IH as (c' & Hin & Hc').
          { intros Hall. apply Hnot. intros x [<- | Hx]; auto. }
          exists c'. split; [by right|done].
        * exists c. split; [by left|done].
    - intros (c & Hin & Hc) Hall. apply list_elem_of_In in Hin.
      rewrite (Hall c Hin) in Hc. done. }
  unfold submitDisabled. rewrite !orb_false_iff, Hblank. split.
  - split.
    + intros [[Hl Hf] Ht]. split; [done|]. split; [|done].
      by destruct (imageFile (modal w)).
    + intros (Hl & [f Hf] & Ht). rewrite Hf. done.
  - intros [[Hl Hf] Ht]. apply Hblank in Ht.
    destruct (imageFile (modal w)) as [file|] eqn:Hfile; [|done].
    unfold handleSubmit. rewrite Hfile, Ht. simpl. eauto.
Qed.

Lemma submit_enabled_iff_witness :
  ∃ reader file,
    imageFile (modal (exampleJpegSelected [32; 83; 32]%N)) = Some file
    ∧ (handleSubmit (exampleJpegSelected [32; 83; 32]%N)).2 = Some (reader, file).
Proof.
  apply (submit_enabled_iff (exampleJpegSelected [32; 83; 32]%N)).
  reflexivity.
Defined.

(** X9: after [handleSubmit] has run, the submit button is disabled, whether
    the guard stopped the submission or a read was started; so the button
    cannot start a second read while one is under way. *)
Theorem handleSubmit_disables_button (w : World) :
  submitDisabled (handleSubmit w).1 = true
  ∧ (is_Some (handleSubmit w).2 → loading (modal (handleSubmit w).1) = true).
Proof.
  unfold handleSubmit, submitDisabled.
  destruct (imageFile (modal w)) as [file|] eqn:Hfile; simpl.
  - destruct (isEmpty (trim (title (modal w)))) eqn:Ht; simpl.
    + rewrite Hfile, Ht. split; [by rewrite !orb_true_r|]. by intros [? ?].
    + done.
  - rewrite Hfile. split; [by rewrite orb_true_r|]. by intros [? ?].
Qed.

Lemma handleSubmit_disables_button_witness :
  submitDisabled (exampleJpegSelected [83]%N) = false
  ∧ loading (modal (handleSubmit (exampleJpegSelected [83]%N)).1) = true.
Proof.
  split; [reflexivity|].
  apply (handleSubmit_disables_button (exampleJpegSelected [83]%N)).
  by eexists.
Defined.

(** ** Publishing *)

Lemma submitAndRead_done_eq w file dataUrl now :
  imageFile (modal w) = Some file → trim (title (modal w)) ≠ [] →
  submitAndRead (FileReader.Done dataUrl) now w
  = setActiveToast (Some (successToast now msgPublished))
      (setUploadModalOpen false
         (setLoading false
            (emit (AddUserUploadedImage (Some dataUrl) (title (modal w)))
               (setLoading true w)))).
Proof.
  intros Hfile Htitle. unfold submitAndRead.
  by rewrite (handleSubmit_started w file).
Qed.

(** X10: a submission whose read succeeds registers the image once with the
    data URL and the title as typed (not trimmed), closes the modal, resets
    the modal's state and leaves the success toast active. It touches neither
    session storage nor the object URLs: the preview URL of the published
    file is not revoked. *)
Theorem submit_success_publishes
    (w : World) (file : File.t) (dataUrl : string) (now : Z) :
  imageFile (modal w) = Some file → trim (title (modal w)) ≠ [] →
  let w' := submitAndRead (FileReader.Done dataUrl) now w in
  registrations w'
    = registrations w ++ [AddUserUploadedImage (Some dataUrl) (title (modal w))]
  ∧ isUploadModalOpen (layout w') = false
  ∧ modal w' = initialUpload
  ∧ activeToast (layout w') = Some (successToast now msgPublished)
  ∧ browser w' = browser w.
Proof.
  intros Hfile Htitle. cbv zeta.
  rewrite (submitAndRead_done_eq w file) by done.
  set (w1 := setUploadModalOpen false _).
  destruct (setActiveToast_Some (successToast now msgPublished) w1)
    as (Heff & -> & -> & -> & ->).
  unfold registrations. rewrite Heff. subst w1.
  destruct (setUploadModalOpen_layout false
              (setLoading false
                 (emit (AddUserUploadedImage (Some dataUrl) (title (modal w)))
                    (setLoading true w)))) as (-> & _).
  unfold setUploadModalOpen.
  rewrite setLayoutCell_effects, setLayoutCell_browser.
  cbn [effects browser emit setLoading with_modal].
  by rewrite !List.filter_app, app_nil_r.
Qed.

Lemma submit_success_publishes_witness :
  let w := exampleJpegSelected [32; 83; 117; 110]%N in
  let w' := submitAndRead (FileReader.Done "data:image/jpeg;base64,AAAA") 5 w in
  registrations w'
    = [AddUserUploadedImage (Some "data:image/jpeg;base64,AAAA") [32; 83; 117; 110]%N]
  ∧ 0%N ∈ liveURLs (browser w').
Proof.
  destruct (submit_success_publishes (exampleJpegSelected [32; 83; 117; 110]%N)
              (exampleFile "image/jpeg" (2 * 1024 * 1024))
              "data:image/jpeg;base64,AAAA" 5)
    as (Hreg & _ & _ & _ & Hbrowser).
  - reflexivity.
  - discriminate.
  - cbv zeta. rewrite Hreg, Hbrowser. split; [reflexivity|].
    apply elem_of_union_l. by apply elem_of_singleton.
Defined.

(** ** Preview URLs, continued *)

(** X11: in every state the layout can reach, the preview URL the modal shows
    is a live object URL, never a revoked one. *)
Theorem preview_always_live
    (b : Browser) (es : list Event) (w : World) (u : ObjectURL) :
  run es (initialWorld b) = Some w →
  previewUrl (modal w) = Some u →
  u ∈ liveURLs (browser w).
Proof.
  intros Hrun Hu. by destruct (run_previewTracked b es w Hrun u Hu).
Qed.

Lemma preview_always_live_witness :
  ∃ w, run [HeaderUploadImage;
            UploadFileChange 0 [exampleFile "image/png" 1024];
            UploadFileChange 1 [exampleFile "image/gif" 1024];
            UploadFileChange 2 [exampleFile "image/webp" 2048]]
           (initialWorld freshBrowser) = Some w
       ∧ previewUrl (modal w) = Some 1%N
       ∧ 1%N ∈ liveURLs (browser w).
Proof.
  eexists. split; [reflexivity|]. split; [reflexivity|].
  eapply (preview_always_live freshBrowser
            [HeaderUploadImage;
             UploadFileChange 0 [exampleFile "image/png" 1024];
             UploadFileChange 1 [exampleFile "image/gif" 1024];
             UploadFileChange 2 [exampleFile "image/webp" 2048]]).
  - reflexivity.
  - reflexivity.
Defined.

(** X12: in every state the layout can reach with a preview on screen,
    accepting another file revokes that preview's URL and shows a new, live
    URL in its place; the other live URLs stay as they were. *)
Theorem replacing_file_revokes_preview
    (b : Browser) (es : list Event) (w : World) (u : ObjectURL)
    (now : Z) (file : File.t) :
  run es (initialWorld b) = Some w →
  previewUrl (modal w) = Some u →
  File.type file ∈ allowedTypes → File.size file ≤ maxSize →
  let w' := handleFileSelect now file w in
  ∃ u', previewUrl (modal w') = Some u'
        ∧ u' ≠ u
        ∧ (u ∉ liveURLs (browser w'))
        ∧ u' ∈ liveURLs (browser w')
        ∧ ∀ v, v ≠ u → v ≠ u' → (v ∈ liveURLs (browser w') ↔ v ∈ liveURLs (browser w)).
Proof.
  intros Hrun Hu Hin Hsmall. cbv zeta.
  destruct (run_previewTracked b es w Hrun u Hu) as [_ Hlt].
  rewrite handleFileSelect_accepted by done.
  destruct w as [l [f pu t ld] [st live next] eff]; simpl in *. subst pu. simpl.
  exists next. split; [done|]. split; [lia|]. split; [|split].
  - rewrite elem_of_union, elem_of_singleton, elem_of_difference, elem_of_singleton.
    intros [?|[_ ?]]; [lia|done].
  - apply elem_of_union_l. by apply elem_of_singleton.
  - intros v Hv Hv'.
    rewrite elem_of_union, elem_of_singleton, elem_of_difference, elem_of_singleton.
    tauto.
Qed.

Lemma replacing_file_revokes_preview_witness :
  ∃ w u', run [HeaderUploadImage;
               UploadFileChange 0 [exampleFile "image/png" 1024]]
              (initialWorld freshBrowser) = Some w
          ∧ previewUrl (modal (handleFileSelect 1 (exampleFile "image/webp" 2048) w))
            = Some u'
          ∧ 0%N ∉ liveURLs (browser (handleFileSelect 1 (exampleFile "image/webp" 2048) w)).
Proof.
  eexists.
  destruct (replacing_file_revokes_preview freshBrowser
              [HeaderUploadImage; UploadFileChange 0 [exampleFile "image/png" 1024]]
              _ 0%N 1 (exampleFile "image/webp" 2048) eq_refl eq_refl)
    as (u' & Hu' & _ & Hgone & _).
  - apply list_elem_of_In. simpl. tauto.
  - simpl. unfold maxSize. lia.
  - exists u'. split; [reflexivity|]. split; [exact Hu'|exact Hgone].
Defined.

(** ** The closed modal *)

Lemma handle_closedModalClean e w :
  enabled e w = true → closedModalClean w → closedModalClean (handle e w).
Proof.
  unfold closedModalClean. destruct w as [[p up act sh sp pl] m b eff]; simpl.
  intros Hen Hw. destruct e; crush_handlers.
Qed.

(** X13: in every state the layout can reach, a closed upload modal holds no
    file, no preview, an empty title and no loading flag; so opening the
    modal always starts from an empty form, also after a published image. *)
Theorem closed_modal_is_clean (b : Browser) (es : list Event) (w : World) :
  run es (initialWorld b) = Some w →
  isUploadModalOpen (layout w) = false →
  modal w = initialUpload
  ∧ modal (handle HeaderUploadImage w) = initialUpload.
Proof.
  intros Hrun Hclosed.
  assert (Hclean : modal w = initialUpload).
  { apply (run_invariant closedModalClean) with es (initialWorld b);
      [| |done|done].
    - intros e w0 Hw0 Hen. by apply handle_closedModalClean.
    - done. }
  split; [done|].
  unfold handle, setUploadModalOpen, setLayoutCell. by rewrite Hclosed.
Qed.

Lemma closed_modal_is_clean_witness :
  ∃ w, run [HeaderUploadImage;
            UploadFileChange 0 [exampleFile "image/png" 1024];
            UploadTitleChange [72; 105]%N;
            UploadSubmit (FileReader.Done "data:image/png;base64,AAAA") 1]
           (initialWorld freshBrowser) = Some w
       ∧ modal (handle HeaderUploadImage w) = initialUpload.
Proof.
  eexists. split; [reflexivity|].
  eapply (closed_modal_is_clean freshBrowser
            [HeaderUploadImage;
             UploadFileChange 0 [exampleFile "image/png" 1024];
             UploadTitleChange [72; 105]%N;
             UploadSubmit (FileReader.Done "data:image/png;base64,AAAA") 1]).
  - reflexivity.
  - reflexivity.
Defined.

(** ** Plan flow round trips *)

(** X14: from an idle plan flow, buying credits leads to picking, choosing a
    plan leads to paying for that plan with the picker closed, and closing the
    payment modal brings the layout's state back to what it was before; so
    does buying credits and closing the picker without choosing. No call is
    made and no browser object is touched on the way. *)
Theorem planFlow_round_trip (plan : CreditPlan) (w : World) :
  isIdle w →
  (∃ picking, run [HeaderBuyCredits] w = Some picking ∧ isPicking picking)
  ∧ (∃ paying, run [HeaderBuyCredits; SelectPlan plan] w = Some paying
               ∧ isPaying plan paying
               ∧ isSelectPlanModalOpen (layout paying) = false)
  ∧ (∃ w', run [HeaderBuyCredits; SelectPlan plan; PaymentClose] w = Some w'
           ∧ layout w' = layout w ∧ browser w' = browser w
           ∧ effects w' = effects w)
  ∧ (∃ w', run [HeaderBuyCredits; SelectPlanClose] w = Some w'
           ∧ layout w' = layout w ∧ browser w' = browser w
           ∧ effects w' = effects w).
Proof.
  destruct w as [[p up act sh sp pl] m b eff]. intros [Hsp Hpl]; simpl in *.
  subst sp pl. repeat split; eexists; by repeat split.
Qed.

Lemma planFlow_round_trip_witness :
  ∃ w', run [HeaderBuyCredits; SelectPlan examplePlan; PaymentClose]
            (onPage profile) = Some w'
        ∧ layout w' = layout (onPage profile)
        ∧ browser w' = browser (onPage profile)
        ∧ effects w' = effects (onPage profile).
Proof.
  apply (planFlow_round_trip examplePlan (onPage profile)).
  by split.
Defined.

(** ** Navigation *)




(** X16: following navigate-back from any page ends on the generator page
    after at most two steps (support, profile, generator), and the generator
    page offers no navigate-back. *)
Theorem navigateBack_ends_on_generator (w : World) :
  ∃ n w', (n ≤ 2)%nat
          ∧ run (replicate n (PageInvoke onNavigateBack)) w = Some w'
          ∧ currentPage (layout w') = generator
          ∧ enabled (PageInvoke onNavigateBack) w' = false.
Proof.
  destruct w as [[p up act sh sp pl] m b eff].
  destruct p.
  - exists 0%nat. eexists. split; [lia|]. by repeat split.
  - exists 1%nat. eexists. split; [lia|]. by repeat split.
  - exists 2%nat. eexists. split; [lia|]. by repeat split.
  - exists 1%nat. eexists. split; [lia|]. by repeat split.
  - exists 1%nat. eexists. split; [lia|]. by repeat split.
Qed.

(** ** The two effects *)

(** X17: the low-credit effect and the toast effect do not interfere: run in
    either order they give the same state, the toast effect leaves the warning
    and the session flag alone, and the low-credit effect leaves the toast and
    the calls made alone. *)
Theorem effects_commute
    (getTime : string → number) (user1 user2 : option User.t)
    (notifications : option (list Notification.t)) (w : World) :
  lowCreditEffect user1 (toastEffect getTime user2 notifications w)
  = toastEffect getTime user2 notifications (lowCreditEffect user1 w)
  ∧ showLowCreditWarning (layout (toastEffect getTime user2 notifications w))
    = showLowCreditWarning (layout w)
  ∧ browser (toastEffect getTime user2 notifications w) = browser w
  ∧ activeToast (layout (lowCreditEffect user1 w)) = activeToast (layout w)
  ∧ effects (lowCreditEffect user1 w) = effects w.
Proof.
  destruct w as [[p up act sh sp pl] m [st live next] eff].
  unfold toastEffect, lowCreditEffect, warningDismissed, getItem.
  unfold removeItem, with_browser. simpl.
  destruct act, user1 as [u1|], user2 as [u2|], notifications as [ns|];
    simpl; try done.
  all: try destruct (unreadOf getTime u2 ns); simpl; try done.
  all: destruct (5 <? User.credits u1), (0 <? User.credits u1),
         (User.credits u1 <=? 5), (bool_decide (st !! dismissKey = Some "true"%string));
       simpl.
  all: unfold setShowLowCreditWarning, setActiveToast, setLayoutCell, rerender,
         emit, with_layout, with_modal; simpl.
  all: repeat case_decide; simpl; try done; try congruence.
Qed.
